(** * chrome-remote-interface: the session object of [lib/chrome.js]

    A shallow embedding of the [Chrome] class (command dispatcher, message
    router, close contract of the socket transport, default target
    selector, options and startup) and the properties its specification
    states about it, with further properties of the code.

    Modelling conventions.
    - JSON data is the inductive [Json]; its numbers are the integers, kept
      as [Z], and the command counter is an integer as well (a JavaScript
      Number counts exactly up to 2^53).  Values that are not JSON data
      (undefined, functions, promises, Error objects) are the other
      constructors of [Value].
    - [this._callbacks], an object used as a dictionary, is a [gmap] from
      property keys to values, its own properties; a key is made from a
      value the way a property access makes it ([ToString]).  It is a plain
      object, so the read of a key it does not own finds the member of
      Object.prototype of that name ([Object_prototype]).  Its prototype
      is never replaced: no command is registered under the key
      [__proto__].  Of JSON data only the own properties are modelled.
    - The session is single threaded.  A method is a function from the
      session to its completion (normal or abrupt), the session it leaves
      and the effects it had on the outside: the functions it called, the
      signals it emitted, what it handed to the transport.
    - Caller code (callbacks and listeners) is opaque: whether it returns
      or throws is a parameter, and the session it finds is recorded in
      the effect.  A method it calls on the session from inside touches
      the counter and the socket, never the pending map (the socket
      acknowledges a send later), so the method it interrupted goes on
      unaffected.
    - The WebSocket object of the [ws] package is the environment.  Its
      state is what the session reads or writes of it: the ready state,
      the listeners of 'close' and 'message', the sends that wait for
      their acknowledgement.  A session starts [connected].
    - The startup ([_start] and what it calls) is modelled on its own, as
      the requests it makes of the outside (the discovery endpoint,
      [api.prepare], the transport constructors, the notifier) and the
      answers it gets; the modules [devtools.js], [api.js],
      [stdio-wrapper.js] and Node's [url] are that outside. *)

From stdpp Require Import gmap strings list fin_maps pretty.
From Stdlib Require Import ZArith Lia.

Set Warnings "-register-all".
Open Scope Z_scope.

(** ** JSON data and JavaScript values

    An object lists each of its properties once; a read takes the first
    entry of a name. *)

Inductive Json : Type :=
| JNull
| JBool (b : bool)
| JNum (n : Z)
| JStr (s : string)
| JArr (items : list Json)
| JObj (fields : list (string * Json)).

Inductive ErrorKind : Type :=
| PlainError        (* Error: errors of the transport, [new Error(..)] *)
| TypeError
| SyntaxError
| ProtocolErrorKind (* the class ProtocolError, lines 15-26 *).

(** Function values the session handles: functions supplied by the caller
    (opaque, named by a number) and the closures the class itself creates. *)
Inductive Fn : Type :=
| UserFn (f : nat)
| SendRawCallback (p : nat) (message : Json) (* lines 97-107, for promise p *)
| Fulfill (p : nat)                          (* [fulfill] of promise p *).

Inductive Value : Type :=
| VUndefined
| VJson (j : Json)
| VFn (f : Fn)
| VPromise (p : nat)
| VError (kind : ErrorKind) (message : string)
         (detail : option (Json * Value)) (* request and response *).

Definition VObject (fields : list (string * Json)) : Value := VJson (JObj fields).
Definition VBool (b : bool) : Value := VJson (JBool b).

Definition String_eqb (a b : string) : bool := bool_decide (a = b).

(** ToBoolean. *)
Definition Json_truthy (j : Json) : bool :=
  match j with
  | JNull => false
  | JBool b => b
  | JNum n => negb (n =? 0)
  | JStr s => negb (String_eqb s "")
  | JArr _ | JObj _ => true
  end.

Definition truthy (v : Value) : bool :=
  match v with
  | VUndefined => false
  | VJson j => Json_truthy j
  | VFn _ | VPromise _ | VError _ _ _ => true
  end.

(** [typeof v === 'function'] *)
Definition is_function (v : Value) : bool :=
  match v with VFn _ => true | _ => false end.

(** [v instanceof Error] *)
Definition instanceof_Error (v : Value) : bool :=
  match v with VError _ _ _ => true | _ => false end.

(** [a || b] *)
Definition or_else (a b : Value) : Value := if truthy a then a else b.

(** Own property of an object literal or of a parsed JSON object. *)
Fixpoint assoc (k : string) (fields : list (string * Json)) : option Json :=
  match fields with
  | [] => None
  | (k', v) :: rest => if String_eqb k k' then Some v else assoc k rest
  end.

Definition of_option (o : option Json) : Value :=
  match o with Some j => VJson j | None => VUndefined end.

(** [v.k] for the field names the source reads (id, method, params, result,
    error, message, data, type, webSocketDebuggerUrl): [None] is the
    TypeError of reading a property of undefined or null.  Primitives,
    arrays and functions have no property of these names. *)
Definition prop (v : Value) (k : string) : option Value :=
  match v with
  | VUndefined | VJson JNull => None
  | VJson (JObj fields) => Some (of_option (assoc k fields))
  | VError _ m _ =>
      Some (if String_eqb k "message" then VJson (JStr m) else VUndefined)
  | VJson _ | VFn _ | VPromise _ => Some VUndefined
  end.

(** ToString on JSON data: integers print in decimal (as JavaScript prints
    them below 10^21); [Array.prototype.join] prints null as the empty
    string. *)
Fixpoint String_of (j : Json) : string :=
  match j with
  | JNull => "null"
  | JBool true => "true"
  | JBool false => "false"
  | JNum n => pretty n
  | JStr s => s
  | JArr items =>
      let item (x : Json) : string :=
        match x with JNull => "" | _ => String_of x end in
      (fix join (xs : list Json) : string :=
         match xs with
         | [] => ""
         | [x] => item x
         | x :: rest => item x +:+ "," +:+ join rest
         end) items
  | JObj _ => "[object Object]"
  end.

(** ToString on the values a property read of JSON data gives. *)
Definition ToString (v : Value) : string :=
  match v with
  | VUndefined => "undefined"
  | VJson j => String_of j
  | VFn _ => "function"
  | VPromise _ => "[object Promise]"
  | VError _ m _ => "Error: " +:+ m
  end.

(** [{ id, ...message }] (line 301): the own properties of [message] are
    copied over the fresh [id], so a property of the same name replaces
    it. *)
Fixpoint set_field (k : string) (v : Json) (fields : list (string * Json))
  : list (string * Json) :=
  match fields with
  | [] => [(k, v)]
  | (k', v') :: rest =>
      if String_eqb k k' then (k, v) :: rest else (k', v') :: set_field k v rest
  end.

Fixpoint indexed (i : nat) (xs : list Json) : list (string * Json) :=
  match xs with
  | [] => []
  | x :: rest => (pretty i, x) :: indexed (S i) rest
  end.

Fixpoint chars (s : string) : list Json :=
  match s with
  | EmptyString => []
  | String c rest => JStr (String c EmptyString) :: chars rest
  end.

Definition own_properties (j : Json) : list (string * Json) :=
  match j with
  | JObj fields => fields
  | JArr items => indexed 0 items
  | JStr s => indexed 0 (chars s)
  | JNull | JBool _ | JNum _ => []
  end.

Definition spread_over (base : list (string * Json)) (j : Json)
  : list (string * Json) :=
  fold_left (fun acc kv => set_field kv.1 kv.2 acc) (own_properties j) base.

(** ** Texts on the wire

    A text is kept as the JSON data it is the text of, or it is no JSON
    text at all. *)
Inductive Text : Type :=
| TextOf (j : Json)
| NotJson (s : string).

Definition JSON_stringify (j : Json) : Text := TextOf j.

(** ** Session state *)

Inductive PromiseState : Type :=
| Pending
| Fulfilled (v : Value)
| Rejected (reason : Value).

(** The closure handed to [this._send] at line 302: it keeps the envelope
    and the callback of the command. *)
Record Ack : Type := { ack_message : Json; ack_callback : Value }.

(** Listeners of the socket's 'close' event. *)
Inductive CloseListener : Type :=
| NotifyDisconnect                   (* lines 260-262, added with [on] *)
| CloseCompletion (callback : Value) (* lines 230-233, added with [once] *).

(** The WebSocket object: ready state (0 connecting, 1 open, 2 closing,
    3 closed), the listeners of 'close' in registration order, whether the
    'message' listener of line 256 is still attached, and the sends whose
    acknowledgement is still to come. *)
Record WebSocket : Type := {
  readyState : Z;
  close_listeners : list CloseListener;
  message_listener : bool;
  unacked : list (Text * Ack)
}.

Record Chrome : Type := {
  _callbacks : gmap string Value;
  _nextCommandId : Z;
  ws : option WebSocket;          (* set by [_createWebSocketWrapper] *)
  promises : list PromiseState    (* the promises [sendRaw] and [close] made *)
}.

Definition set_callbacks (f : gmap string Value -> gmap string Value)
  (st : Chrome) : Chrome :=
  {| _callbacks := f (_callbacks st); _nextCommandId := _nextCommandId st;
     ws := ws st; promises := promises st |}.

Definition set_nextCommandId (n : Z) (st : Chrome) : Chrome :=
  {| _callbacks := _callbacks st; _nextCommandId := n;
     ws := ws st; promises := promises st |}.

Definition set_ws (w : WebSocket) (st : Chrome) : Chrome :=
  {| _callbacks := _callbacks st; _nextCommandId := _nextCommandId st;
     ws := Some w; promises := promises st |}.

Definition set_promises (ps : list PromiseState) (st : Chrome) : Chrome :=
  {| _callbacks := _callbacks st; _nextCommandId := _nextCommandId st;
     ws := ws st; promises := ps |}.

(** What a method does to the outside.  [Invoke] and [Emit] carry the
    session as the callee finds it.  [Invoke] is the call of a function
    of the caller or of a closure of the class; the call of a function
    that was found on Object.prototype is a [CallInherited]. *)
Inductive Effect : Type :=
| Invoke (f : Fn) (args : list Value) (seen : Chrome)
| Emit (name : string) (args : list Value) (seen : Chrome)
| Transmit (data : Text) (a : Ack)
| Uncaught (e : Value)
| CallInherited (name : string) (args : list Value).

(** ** The monad of methods: state, effects, exceptions *)

Inductive Completion (A : Type) : Type :=
| Normal (a : A)
| Abrupt (e : Value).
Arguments Normal {A} a.
Arguments Abrupt {A} e.

Record Outcome (A : Type) : Type := Out {
  completion : Completion A;
  final : Chrome;
  effects : list Effect
}.
Arguments Out {A} _ _ _.
Arguments completion {A} _.
Arguments final {A} _.
Arguments effects {A} _.

Definition M (A : Type) : Type := Chrome -> Outcome A.

Definition ret {A} (a : A) : M A := fun st => Out (Normal a) st [].
Definition throw {A} (e : Value) : M A := fun st => Out (Abrupt e) st [].

Definition bind {A B} (m : M A) (k : A -> M B) : M B := fun st =>
  let r := m st in
  match completion r with
  | Normal a =>
      let r' := k a (final r) in
      Out (completion r') (final r') (effects r ++ effects r')
  | Abrupt e => Out (Abrupt e) (final r) (effects r)
  end.

(** [try { m } catch (e) { h e }] *)
Definition catch {A} (m : M A) (h : Value -> M A) : M A := fun st =>
  let r := m st in
  match completion r with
  | Normal a => r
  | Abrupt e =>
      let r' := h e (final r) in
      Out (completion r') (final r') (effects r ++ effects r')
  end.

Definition lift {A} (c : Completion A) : M A := fun st => Out c st [].
Definition read {A} (f : Chrome -> A) : M A := fun st => Out (Normal (f st)) st [].
Definition modify (f : Chrome -> Chrome) : M unit := fun st => Out (Normal tt) (f st) [].
Definition tell (e : Chrome -> Effect) : M unit := fun st => Out (Normal tt) st [e st].

Definition prepend {A} (e : Effect) (r : Outcome A) : Outcome A :=
  Out (completion r) (final r) (e :: effects r).

Declare Scope js_scope.
Delimit Scope js_scope with js.
Notation "x <- m ;; k" := (bind m (fun x => k))
  (at level 100, m at next level, right associativity) : js_scope.
Notation "m ;; k" := (bind m (fun _ => k))
  (at level 100, right associativity) : js_scope.
Open Scope js_scope.

Definition type_error {A} (what : string) : M A := throw (VError TypeError what None).

(** [v.k] inside a method. *)
Definition get (v : Value) (k : string) : M Value :=
  match prop v k with
  | Some x => ret x
  | None => type_error ("Cannot read properties of " +:+ ToString v)
  end.

Definition arg (i : nat) (args : list Value) : Value := default VUndefined (args !! i).

(** ** Object.prototype

    What the read of a property finds on a plain object that does not own
    it, and what becomes of the member when it is called like a callback,
    without a receiver: [constructor] (the function Object) and [toString]
    return; [isPrototypeOf] returns when its first argument is no object;
    the other functions throw a TypeError for want of a receiver;
    [__proto__] gives the prototype itself, an object, which cannot be
    called. *)
Inductive Member : Type :=
| Lenient
| LenientOnPrimitive
| NeedsReceiver
| NotCallable.

Definition Object_prototype_members : list (string * Member) :=
  [("constructor", Lenient);
   ("toString", Lenient);
   ("isPrototypeOf", LenientOnPrimitive);
   ("valueOf", NeedsReceiver);
   ("hasOwnProperty", NeedsReceiver);
   ("propertyIsEnumerable", NeedsReceiver);
   ("toLocaleString", NeedsReceiver);
   ("__defineGetter__", NeedsReceiver);
   ("__defineSetter__", NeedsReceiver);
   ("__lookupGetter__", NeedsReceiver);
   ("__lookupSetter__", NeedsReceiver);
   ("__proto__", NotCallable)].

Fixpoint member_named (key : string) (members : list (string * Member))
  : option Member :=
  match members with
  | [] => None
  | (name, member) :: rest =>
      if String.eqb key name then Some member else member_named key rest
  end.

Definition Object_prototype (key : string) : option Member :=
  member_named key Object_prototype_members.

(** [typeof v] is 'object' or 'function', and [v] is not null. *)
Definition is_object (v : Value) : bool :=
  match v with
  | VUndefined => false
  | VJson (JArr _ | JObj _) => true
  | VJson _ => false
  | VFn _ | VPromise _ | VError _ _ _ => true
  end.

Definition callable (member : Member) : bool :=
  match member with NotCallable => false | _ => true end.

(** Whether [member(...args)] returns. *)
Definition returns (member : Member) (args : list Value) : bool :=
  match member with
  | Lenient => true
  | LenientOnPrimitive => negb (is_object (arg 0 args))
  | NeedsReceiver | NotCallable => false
  end.

(** [this._callbacks[key]] (line 273): the value of the own property; or
    the member of Object.prototype; or undefined. *)
Inductive Callee : Type :=
| Held (callback : Value)
| Inherited (name : string) (member : Member).

Definition lookup_callbacks (cbs : gmap string Value) (key : string) : Callee :=
  match cbs !! key with
  | Some callback => Held callback
  | None =>
      match Object_prototype key with
      | Some member => Inherited key member
      | None => Held VUndefined
      end
  end.

(** The members of Object.prototype are functions and an object. *)
Definition Callee_truthy (callee : Callee) : bool :=
  match callee with
  | Held callback => truthy callback
  | Inherited _ _ => true
  end.

(** [JSON.parse] throws a SyntaxError on a text that is not JSON. *)
Definition JSON_parse (data : Text) : Completion Json :=
  match data with
  | TextOf j => Normal j
  | NotJson _ => Abrupt (VError SyntaxError "Unexpected token" None)
  end.

(** ** ProtocolError (lines 15-26) *)

Definition ProtocolError (request : Json) (response : Value) : Completion Value :=
  match prop response "message" with            (* let {message} = response *)
  | None => Abrupt (VError TypeError "Cannot destructure property 'message'" None)
  | Some message =>
      let data := default VUndefined (prop response "data") in
      let message :=
        if truthy data
        then VJson (JStr (ToString message +:+ " (" +:+ ToString data +:+ ")"))
        else message in
      (* super(message): an undefined message leaves the empty default *)
      let shown := match message with VUndefined => "" | _ => ToString message end in
      Normal (VError ProtocolErrorKind shown (Some (request, response)))
  end.

(** ** The default target selector (lines 32-51)

    [scan] is [targets.find] with its arrow function: it returns the entry
    found (or undefined) and the value [backup] has afterwards; [None] is
    the TypeError of an entry that is null. *)
Fixpoint scan (targets : list Json) (backup : Value) : option (Value * Value) :=
  match targets with
  | [] => Some (VUndefined, backup)
  | target :: rest =>
      match prop (VJson target) "webSocketDebuggerUrl" with
      | None => None
      | Some url =>
          if truthy url then
            let backup := or_else backup (VJson target) in
            match prop (VJson target) "type" with
            | Some (VJson (JStr type)) =>
                if String_eqb type "page"
                then Some (VJson target, backup) else scan rest backup
            | _ => scan rest backup
            end
          else scan rest backup
      end
  end.

Definition no_inspectable_targets : Value :=
  VError PlainError "No inspectable targets" None.

Definition defaultTarget (targets : list Json) : Completion Value :=
  match scan targets VUndefined with
  | None => Abrupt (VError TypeError "Cannot read properties of null" None)
  | Some (target, backup) =>
      let target := or_else target backup in
      if truthy target then Normal target else Abrupt no_inspectable_targets
  end.

(** ** The socket object, as the session uses it *)

(** [ws.send(data, ack)] *)
Definition ws_send (data : Text) (a : Ack) (w : WebSocket) : WebSocket :=
  {| readyState := readyState w; close_listeners := close_listeners w;
     message_listener := message_listener w;
     unacked := unacked w ++ [(data, a)] |}.

(** [ws.removeAllListeners('close')] *)
Definition ws_removeAllListeners_close (w : WebSocket) : WebSocket :=
  {| readyState := readyState w; close_listeners := [];
     message_listener := message_listener w; unacked := unacked w |}.

(** [ws.removeAllListeners()] *)
Definition ws_removeAllListeners (w : WebSocket) : WebSocket :=
  {| readyState := readyState w; close_listeners := [];
     message_listener := false; unacked := unacked w |}.

(** [ws.once('close', l)] and [ws.on('close', l)] *)
Definition ws_once_close (l : CloseListener) (w : WebSocket) : WebSocket :=
  {| readyState := readyState w; close_listeners := close_listeners w ++ [l];
     message_listener := message_listener w; unacked := unacked w |}.

(** [ws.close()]: a socket that is not closed starts (or goes on with) its
    closing handshake; nothing is emitted yet. *)
Definition ws_close (w : WebSocket) : WebSocket :=
  {| readyState := if readyState w =? 3 then 3 else 2;
     close_listeners := close_listeners w;
     message_listener := message_listener w; unacked := unacked w |}.

Definition is_once (l : CloseListener) : bool :=
  match l with CloseCompletion _ => true | NotifyDisconnect => false end.

(** The socket reaches state 3; its [once] listeners are detached as they
    are run. *)
Definition ws_closed (w : WebSocket) : WebSocket :=
  {| readyState := 3;
     close_listeners := filter (fun l => is_once l = false) (close_listeners w);
     message_listener := message_listener w; unacked := unacked w |}.

(** The [n]-th waiting send is acknowledged. *)
Definition ws_acked (n : nat) (w : WebSocket) : WebSocket :=
  {| readyState := readyState w; close_listeners := close_listeners w;
     message_listener := message_listener w;
     unacked := take n (unacked w) ++ drop (S n) (unacked w) |}.

(** The session as the constructor leaves it (lines 64-65), and once
    [_connect] has created the socket, attached its listeners (lines
    253-265) and seen it open. *)
Definition constructed : Chrome :=
  {| _callbacks := ∅; _nextCommandId := 1; ws := None; promises := [] |}.

Definition open_socket : WebSocket :=
  {| readyState := 1; close_listeners := [NotifyDisconnect];
     message_listener := true; unacked := [] |}.

Definition connected : Chrome := set_ws open_socket constructed.

(** A session with one command pending: id 1, sent with the callback 7
    and acknowledged. *)
Definition one_pending : Chrome :=
  set_callbacks (insert "1" (VFn (UserFn 7))) (set_nextCommandId 2 connected).

(** A session with one command pending for a promise: id 1, sent without
    a callback and acknowledged. *)
Definition promise_pending : Chrome :=
  set_callbacks
    (insert "1" (VFn (SendRawCallback 0
                        (JObj [("method", JStr "Foo.bar");
                               ("params", JObj [("x", JNum 1)])]))))
    (set_nextCommandId 2 (set_promises [Pending] connected)).

(** A session whose peer has closed the socket. *)
Definition peer_closed : Chrome := set_ws (ws_closed open_socket) connected.

(** Caller code that never throws. *)
Definition never_throws {A : Type} : A -> list Value -> Chrome -> option Value :=
  fun _ _ _ => None.

Abbreviation quiet_caller := (@never_throws nat).
Abbreviation quiet_listeners := (@never_throws string).

(** ** Startup: options, targets, and what [_start] asks of the outside

    The options of the constructor are JSON data or absent; the functions
    among them ([target], [alterPath]) are functions, and the child
    process is an opaque value. *)

(** [options.target] and [this.target]. *)
Inductive Target : Type :=
| TargetUndefined
| TargetData (userTarget : Json)
| TargetFunction (func : Json -> Completion Value).

Definition Target_truthy (t : Target) : bool :=
  match t with
  | TargetUndefined => false
  | TargetData userTarget => Json_truthy userTarget
  | TargetFunction _ => true
  end.

(** The argument [options] of the constructor. *)
Module Options.
Record t : Type := {
  host : Value;
  port : Value;
  secure : Value;
  useHostName : Value;
  alterPath : option (Value -> Completion Value);
  protocol : Value;
  local : Value;
  target : Target;
  process : Value
}.
End Options.

(** [{}] *)
Definition no_options : Options.t :=
  {| Options.host := VUndefined; Options.port := VUndefined;
     Options.secure := VUndefined; Options.useHostName := VUndefined;
     Options.alterPath := None; Options.protocol := VUndefined;
     Options.local := VUndefined; Options.target := TargetUndefined;
     Options.process := VUndefined |}.

(** The properties the constructor sets on [this] at lines 53-61. *)
Module This.
Record t : Type := {
  host : Value;
  port : Value;
  secure : bool;
  useHostName : bool;
  alterPath : Value -> Completion Value;
  protocol : Value;
  local : bool;
  target : Target;
  process : Value
}.
End This.

(** The object [options] of [_start] (lines 125-131), which it hands to
    the [devtools] module; [local] is absent until [_fetchProtocol] sets
    it. *)
Module Devtools.
Record options : Type := {
  host : Value;
  port : Value;
  secure : bool;
  useHostName : bool;
  alterPath : Value -> Completion Value;
  local : option bool
}.
End Devtools.

(** What [_start] reads and writes of the object [url.parse] returns. *)
Module Url.
Record t : Type := {
  hostname : Value;
  port : Value;
  pathname : Value;
  rest : list (string * Value)
}.
End Url.

(** An awaited value: the promise resolved, it rejected (or the code
    before it threw), or it never settles. *)
Inductive Answer (A : Type) : Type :=
| Resolved (a : A)
| Thrown (e : Value)
| Unsettled.
Arguments Resolved {A} a.
Arguments Thrown {A} e.
Arguments Unsettled {A}.

(** What the startup asks of the outside, in order: the discovery
    endpoint, [api.prepare], the constructors of the transport, and the
    notifier. *)
Inductive Request : Type :=
| DevtoolsList (options : Devtools.options)
| DevtoolsProtocol (options : Devtools.options)
| ApiPrepare (protocol : Value)
| NewWebSocket (address : option string)
| NewStdioWrapper
| NotifyConnect
| NotifyError (err : Value).

Definition Async (A : Type) : Type := list Request * Answer A.

Definition resolve {A} (a : A) : Async A := ([], Resolved a).
Definition reject {A} (e : Value) : Async A := ([], Thrown e).

Definition await {A B} (m : Async A) (k : A -> Async B) : Async B :=
  match m.2 with
  | Resolved a => (m.1 ++ (k a).1, (k a).2)
  | Thrown e => (m.1, Thrown e)
  | Unsettled => (m.1, Unsettled)
  end.

(** Synchronous code inside an asynchronous function. *)
Definition settled {A} (c : Completion A) : Async A :=
  match c with
  | Normal a => resolve a
  | Abrupt e => reject e
  end.

(** A call that goes outside and is awaited. *)
Definition request {A} (r : Request) (answer : Answer A) : Async A := ([r], answer).

(** A call that goes outside and returns, or throws. *)
Definition called (r : Request) (thrown : option Value) : Async unit :=
  ([r], match thrown with Some e => Thrown e | None => Resolved tt end).

Declare Scope async_scope.
Delimit Scope async_scope with async.
Notation "x <- m ;; k" := (await m (fun x => k))
  (at level 100, m at next level, right associativity) : async_scope.
Notation "m ;; k" := (await m (fun _ => k))
  (at level 100, right associativity) : async_scope.

(** [v.k] in asynchronous code. *)
Definition property (v : Value) (k : string) : Completion Value :=
  match prop v k with
  | Some x => Normal x
  | None => Abrupt (VError TypeError ("Cannot read properties of " +:+ ToString v) None)
  end.

(** [s.startsWith(searchString)] *)
Fixpoint startsWith (s searchString : string) {struct searchString} : bool :=
  match searchString with
  | EmptyString => true
  | String c rest =>
      match s with
      | String c' rest' => Ascii.eqb c' c && startsWith rest' rest
      | EmptyString => false
      end
  end.

(** The letters a regular expression with the flag [i] takes for one
    another: it compares them in upper case. *)
Definition toUpperCase (c : Ascii.ascii) : Ascii.ascii :=
  let n := Ascii.nat_of_ascii c in
  if ((97 <=? n) && (n <=? 122))%nat then Ascii.ascii_of_nat (n - 32) else c.

Fixpoint starts_ignoring_case (s pattern : string) {struct pattern} : bool :=
  match pattern with
  | EmptyString => true
  | String c rest =>
      match s with
      | String c' rest' =>
          Ascii.eqb (toUpperCase c') (toUpperCase c) && starts_ignoring_case rest' rest
      | EmptyString => false
      end
  end.

(** [s.match(/^wss?:/i)], as a test (line 172). *)
Definition is_WebSocket_URL (s : string) : bool :=
  starts_ignoring_case s "ws:" || starts_ignoring_case s "wss:".

(** [url.replace(/^ws:/i, 'wss:')] (line 220) *)
Definition replace_ws_by_wss (url : string) : string :=
  match url with
  | String _ (String _ (String _ rest)) =>
      if starts_ignoring_case url "ws:" then "wss:" +:+ rest else url
  | _ => url
  end.

(** [targets.find((target) => target.id === idOrUrl)] on an array (line
    178); [None] is the TypeError of an entry that is null. *)
Fixpoint find_by_id (idOrUrl : string) (targets : list Json) : option Value :=
  match targets with
  | [] => Some VUndefined
  | target :: rest =>
      match prop (VJson target) "id" with
      | None => None
      | Some (VJson (JStr id)) =>
          if String_eqb id idOrUrl then Some (VJson target)
          else find_by_id idOrUrl rest
      | Some _ => find_by_id idOrUrl rest
      end
  end.

Definition reading_null : Value :=
  VError TypeError "Cannot read properties of null" None.

Definition find_is_not_a_function : Value :=
  VError TypeError "targets.find is not a function" None.

(** [targets.find(...)] on what the endpoint answered: only an array has
    the method. *)
Definition targets_find_by_id (idOrUrl : string) (targets : Json) : Completion Value :=
  match targets with
  | JArr items =>
      match find_by_id idOrUrl items with
      | Some object => Normal object
      | None => Abrupt reading_null
      end
  | JNull => Abrupt reading_null
  | _ => Abrupt find_is_not_a_function
  end.

(** [targets[result]] for a number [result] (line 190). *)
Definition targets_at (targets : Json) (result : Z) : Completion Value :=
  match targets with
  | JNull => Abrupt reading_null
  | JArr items =>
      Normal (if result <? 0 then VUndefined else of_option (items !! Z.to_nat result))
  | JStr s =>
      Normal (if result <? 0 then VUndefined else of_option (chars s !! Z.to_nat result))
  | JObj fields => Normal (of_option (assoc (pretty result) fields))
  | JBool _ | JNum _ => Normal VUndefined
  end.

(** The default selector (lines 32-51) on what the endpoint answered. *)
Definition defaultTarget_on (targets : Json) : Completion Value :=
  match targets with
  | JArr items => defaultTarget items
  | JNull => Abrupt reading_null
  | _ => Abrupt find_is_not_a_function
  end.

(** The character that encloses the target in the message of line 194. *)
Definition double_quote : string := String (Ascii.ascii_of_nat 34) EmptyString.

Definition invalid_target (shown : string) : Value :=
  VError PlainError
    ("Invalid target argument " +:+ double_quote +:+ shown +:+ double_quote) None.

(** The 'open' and 'error' events of the transport (lines 253-255 and
    263-265), and what they do to the promise of [_connect]: a promise
    settles once. *)
Inductive WrapperEvent : Type :=
| WrapperOpen
| WrapperError (err : Value).

Definition on_wrapper_event (promise : PromiseState) (event : WrapperEvent)
  : PromiseState :=
  match promise with
  | Pending =>
      match event with
      | WrapperOpen => Fulfilled VUndefined
      | WrapperError err => Rejected err
      end
  | Fulfilled _ | Rejected _ => promise
  end.

Definition awaited (promise : PromiseState) : Answer Value :=
  match promise with
  | Pending => Unsettled
  | Fulfilled v => Resolved v
  | Rejected reason => Thrown reason
  end.

(** The outside of the startup: the constants of [defaults.js], the
    answers of the discovery endpoint, whether [api.prepare] and the
    constructors of the transport throw, Node's [url.parse] and
    [url.format], and the 'open' and 'error' events of the transport that
    was created, in order. *)
Record Outside : Type := {
  defaults_HOST : Value;
  defaults_PORT : Value;
  devtools_List : Devtools.options -> Answer Json;
  devtools_Protocol : Devtools.options -> Answer Value;
  api_prepare : Value -> option Value;
  parseUrl : Value -> Completion Url.t;
  formatUrl : Url.t -> Completion string;
  new_WebSocket : option string -> option Value;
  new_StdioWrapper : Value -> option Value;
  wrapper_events : list WrapperEvent
}.

(** Caller code that throws [e] whenever it is called. *)
Definition always_throws {A : Type} (e : Value)
  : A -> list Value -> Chrome -> option Value :=
  fun _ _ _ => Some e.

(** An endpoint with two targets, a worker and a page, and an outside
    in which everything succeeds: the transport opens, and reports an
    error afterwards.  Its [url.parse] keeps the address as the path, and
    its [url.format] gives the path back. *)
Definition worker_a : Json :=
  JObj [("id", JStr "a"); ("type", JStr "worker");
        ("webSocketDebuggerUrl", JStr "ws://localhost:9222/devtools/worker/a")].

Definition page_b : Json :=
  JObj [("id", JStr "b"); ("type", JStr "page");
        ("webSocketDebuggerUrl", JStr "ws://localhost:9222/devtools/page/b")].

Definition example_outside : Outside :=
  {| defaults_HOST := VJson (JStr "localhost");
     defaults_PORT := VJson (JNum 9222);
     devtools_List := fun _ => Resolved (JArr [worker_a; page_b]);
     devtools_Protocol := fun _ => Resolved (VObject [("domains", JArr [])]);
     api_prepare := fun _ => None;
     parseUrl := fun url =>
       Normal {| Url.hostname := VJson (JStr "localhost");
                 Url.port := VJson (JStr "9222");
                 Url.pathname := url;
                 Url.rest := [] |};
     formatUrl := fun urlObject => Normal (ToString (Url.pathname urlObject));
     new_WebSocket := fun _ => None;
     new_StdioWrapper := fun _ => None;
     wrapper_events :=
       [WrapperOpen; WrapperError (VError PlainError "socket hang up" None)] |}.

(** Options with a target only, and options for a secure session that
    brings its address and its protocol. *)
Definition target_option (target : Target) : Options.t :=
  {| Options.host := VUndefined; Options.port := VUndefined;
     Options.secure := VUndefined; Options.useHostName := VUndefined;
     Options.alterPath := None; Options.protocol := VUndefined;
     Options.local := VUndefined; Options.target := target;
     Options.process := VUndefined |}.

Definition offline_options : Options.t :=
  {| Options.host := VUndefined; Options.port := VUndefined;
     Options.secure := VBool true; Options.useHostName := VUndefined;
     Options.alterPath := None;
     Options.protocol := VObject [("domains", JArr [])];
     Options.local := VUndefined;
     Options.target := TargetData (JStr "ws://localhost:9222/devtools/page/b");
     Options.process := VUndefined |}.

(** ** The methods of the session *)

Section Session.

(** Caller code: whether the function [f], called with [args] on the
    session [st], throws (and what), and the same for the listeners of a
    signal taken together. *)
Variable user_throws : nat -> list Value -> Chrome -> option Value.
Variable listeners_throw : string -> list Value -> Chrome -> option Value.

(** [this.emit(name, ...args)] *)
Definition emit (name : string) (args : list Value) : M unit :=
  tell (Emit name args);;
  outcome <- read (listeners_throw name args);;
  match outcome with Some e => throw e | None => ret tt end.

(** Promises settle once. *)
Definition new_promise : M nat :=
  p <- read (fun st => length (promises st));;
  modify (fun st => set_promises (promises st ++ [Pending]) st);;
  ret p.

Definition settle (p : nat) (s : PromiseState) : M unit :=
  modify (fun st =>
    match promises st !! p with
    | Some Pending => set_promises (<[p := s]> (promises st)) st
    | _ => st
    end).

(** Lines 97-107: the callback [sendRaw] registers for promise [p]. *)
Definition sendRaw_callback (p : nat) (message : Json) (error response : Value)
  : M unit :=
  if truthy error then
    if instanceof_Error error
    then settle p (Rejected error)          (* low-level WebSocket error *)
    else
      reason <- lift (ProtocolError message response);;
      settle p (Rejected reason)
  else settle p (Fulfilled response).

(** The body of a function value, run on [args]. *)
Definition body (f : Fn) (args : list Value) : M unit :=
  match f with
  | UserFn n =>
      outcome <- read (user_throws n args);;
      match outcome with Some e => throw e | None => ret tt end
  | SendRawCallback p message =>
      sendRaw_callback p message (arg 0 args) (arg 1 args)
  | Fulfill p => settle p (Fulfilled (arg 0 args))
  end.

(** [callee(...args)] *)
Definition call (callee : Value) (args : list Value) : M unit :=
  match callee with
  | VFn f => tell (Invoke f args);; body f args
  | _ => type_error "callback is not a function"
  end.

(** [callback(...args)] for what line 273 found. *)
Definition call_callee (callee : Callee) (args : list Value) : M unit :=
  match callee with
  | Held callback => call callback args
  | Inherited name member =>
      if callable member then
        tell (fun _ => CallInherited name args);;
        if returns member args then ret tt
        else type_error "called without a receiver"
      else type_error "callback is not a function"
  end.

(** [this._send(data, ack)] with [_send] bound to [ws.send] (line 237):
    the socket takes the data and acknowledges later. *)
Definition _send (data : Text) (a : Ack) : M unit :=
  w <- read ws;;
  match w with
  | None => type_error "this._send is not a function"
  | Some w =>
      tell (fun _ => Transmit data a);;
      modify (set_ws (ws_send data a w))
  end.

(** Lines 299-312, up to the call of [_send]. *)
Definition _enqueueCommand (message : Json) (callback : Value) : M unit :=
  id <- read _nextCommandId;;
  modify (set_nextCommandId (id + 1));;
  let message := JObj (spread_over [("id", JNum id)] message) in
  _send (JSON_stringify message)
        {| ack_message := message; ack_callback := callback |}.

(** Lines 302-311: the acknowledgement of a send. *)
Definition acknowledge (a : Ack) (err : Value) : M unit :=
  if truthy err then
    if is_function (ack_callback a) then call (ack_callback a) [err] else ret tt
  else
    id <- get (VJson (ack_message a)) "id";;
    modify (set_callbacks (insert (ToString id) (ack_callback a))).

(** Lines 90-110. *)
Definition sendRaw (message : Json) (callback : Value) : M Value :=
  if is_function callback then
    _enqueueCommand message callback;;
    ret VUndefined
  else
    p <- new_promise;;
    (* an exception of the executor rejects the promise *)
    catch (_enqueueCommand message (VFn (SendRawCallback p message)))
          (fun e => settle p (Rejected e));;
    ret (VPromise p).

(** A value placed in an envelope; objects that are not JSON data have
    no field the session reads. *)
Definition as_json (v : Value) : Json :=
  match v with VJson j => j | _ => JObj [] end.

(** Lines 78-88. *)
Definition send (method : Json) (params callback : Value) : M Value :=
  let callback := if is_function params then params else callback in
  let params := if is_function params then VUndefined else params in
  sendRaw (JObj [("method", method);
                 ("params", as_json (or_else params (VObject [])))])
          callback.

(** [Object.keys(this._callbacks)] *)
Definition Object_keys (m : gmap string Value) : list string := (map_to_list m).*1.

(** Lines 270-296. *)
Definition _handleMessage (message : Json) : M unit :=
  id <- get (VJson message) "id";;
  if truthy id then
    cbs <- read _callbacks;;
    let callback := lookup_callbacks cbs (ToString id) in
    if negb (Callee_truthy callback) then ret tt
    else
      error <- get (VJson message) "error";;
      (if truthy error then call_callee callback [VBool true; error]
       else
         result <- get (VJson message) "result";;
         call_callee callback [VBool false; or_else result (VObject [])]);;
      modify (set_callbacks (delete (ToString id)));;
      cbs <- read _callbacks;;
      if (length (Object_keys cbs) =? 0)%nat then emit "ready" [] else ret tt
  else
    method <- get (VJson message) "method";;
    if truthy method then
      emit "event" [VJson message];;
      params <- get (VJson message) "params";;
      emit (ToString method) [params]
    else ret tt.

(** Lines 256-259: the listener of the transport's 'message'. *)
Definition on_message (data : Text) : M unit :=
  message <- lift (JSON_parse data);;
  _handleMessage message.

(** Lines 223-236: [this._close] of the socket transport. *)
Definition _close (callback : Value) : M unit :=
  w <- read ws;;
  match w with
  | None => type_error "this._close is not a function"
  | Some w =>
      if readyState w =? 3 then call callback []
      else
        modify (set_ws
          (ws_close (ws_once_close (CloseCompletion callback)
             (ws_removeAllListeners_close w))))
  end.

(** Lines 112-121. *)
Definition close (callback : Value) : M Value :=
  if is_function callback then
    _close callback;;
    ret VUndefined
  else
    p <- new_promise;;
    catch (_close (VFn (Fulfill p))) (fun e => settle p (Rejected e));;
    ret (VPromise p).

(** One listener of the socket's 'close' event. *)
Definition run_close_listener (l : CloseListener) : M unit :=
  match l with
  | NotifyDisconnect => emit "disconnect" []
  | CloseCompletion callback =>
      w <- read ws;;
      match w with
      | Some w => modify (set_ws (ws_removeAllListeners w))
      | None => ret tt
      end;;
      call callback []
  end.

Fixpoint run_close_listeners (ls : list CloseListener) : M unit :=
  match ls with
  | [] => ret tt
  | l :: rest => run_close_listener l;; run_close_listeners rest
  end.

(** The socket closes (the peer went away, or the closing handshake
    ended): it enters state 3 and emits 'close', once in its life, to the
    listeners attached at that time; a [once] listener is detached before
    it runs. *)
Definition socket_closed : M unit :=
  w <- read ws;;
  match w with
  | None => ret tt
  | Some w =>
      if readyState w =? 3 then ret tt
      else
        modify (set_ws (ws_closed w));;
        run_close_listeners (close_listeners w)
  end.

(** The socket acknowledges its [n]-th waiting send with [err]. *)
Definition socket_ack (n : nat) (err : Value) : M unit :=
  w <- read ws;;
  match w with
  | None => ret tt
  | Some w =>
      match unacked w !! n with
      | None => ret tt
      | Some (_, a) =>
          modify (set_ws (ws_acked n w));;
          acknowledge a err
      end
  end.

(** The socket delivers a message to the listener of line 256, as long
    as that listener is attached. *)
Definition socket_message (data : Text) : M unit :=
  w <- read ws;;
  match w with
  | Some w => if message_listener w then on_message data else ret tt
  | None => ret tt
  end.

(** ** Runs of a session

    What happens to a connected session, one turn of the event loop at a
    time: the caller calls a method, or the socket reports something.  An
    exception that leaves a turn is nobody's to catch; the session stays
    as the turn left it. *)
Inductive Input : Type :=
| CallSend (method : Json) (params callback : Value)
| CallClose (callback : Value)
| SocketAck (n : nat) (err : Value)
| SocketMessage (data : Text)
| SocketClosed.

Definition turn (i : Input) : M unit :=
  match i with
  | CallSend method params callback => send method params callback;; ret tt
  | CallClose callback => close callback;; ret tt
  | SocketAck n err => socket_ack n err
  | SocketMessage data => socket_message data
  | SocketClosed => socket_closed
  end.

Definition uncaught (m : M unit) : M unit :=
  catch m (fun e => tell (fun _ => Uncaught e)).

Fixpoint run (inputs : list Input) : M unit :=
  match inputs with
  | [] => ret tt
  | i :: rest => uncaught (turn i);; run rest
  end.


(** ** Startup

    The startup runs on its own: what the caller does meanwhile is not
    part of it. *)

(** Lines 52-61: the options of the constructor. *)
Definition constructor (outside : Outside) (options : option Options.t) : This.t :=
  let options := default no_options options in
  {| This.host := or_else (Options.host options) (defaults_HOST outside);
     This.port := or_else (Options.port options) (defaults_PORT outside);
     This.secure := truthy (Options.secure options);
     This.useHostName := truthy (Options.useHostName options);
     This.alterPath := default (fun path => Normal path) (Options.alterPath options);
     This.protocol := Options.protocol options;
     This.local := truthy (or_else (Options.local options) (Options.process options));
     This.target :=
       if Target_truthy (Options.target options) then Options.target options
       else TargetFunction defaultTarget_on;
     This.process := Options.process options |}.

(** Lines 162-196. *)
Definition _fetchDebuggerURL (outside : Outside) (this : This.t)
    (options : Devtools.options) : Async Value :=
  match This.target this with
  | TargetData (JStr userTarget) =>
      let idOrUrl :=
        if startsWith userTarget "/"
        then "ws://" +:+ ToString (This.host this) +:+ ":"
             +:+ ToString (This.port this) +:+ userTarget
        else userTarget in
      if is_WebSocket_URL idOrUrl then resolve (VJson (JStr idOrUrl))
      else
        (targets <- request (DevtoolsList options) (devtools_List outside options);;
         object <- settled (targets_find_by_id idOrUrl targets);;
         settled (property object "webSocketDebuggerUrl"))%async
  | TargetData ((JNull | JArr _ | JObj _) as object) =>
      settled (property (VJson object) "webSocketDebuggerUrl")
  | TargetFunction func =>
      (targets <- request (DevtoolsList options) (devtools_List outside options);;
       result <- settled (func targets);;
       object <- settled (match result with
                          | VJson (JNum index) => targets_at targets index
                          | _ => Normal result
                          end);;
       settled (property object "webSocketDebuggerUrl"))%async
  | TargetData ((JNum _ | JBool _) as userTarget) =>
      reject (invalid_target (String_of userTarget))
  | TargetUndefined => reject (invalid_target "undefined")
  end.

(** Lines 199-209. *)
Definition _fetchProtocol (outside : Outside) (this : This.t)
    (options : Devtools.options) : Async Value :=
  if truthy (This.protocol this) then resolve (This.protocol this)
  else
    let options :=
      {| Devtools.host := Devtools.host options;
         Devtools.port := Devtools.port options;
         Devtools.secure := Devtools.secure options;
         Devtools.useHostName := Devtools.useHostName options;
         Devtools.alterPath := Devtools.alterPath options;
         Devtools.local := Some (This.local this) |} in
    request (DevtoolsProtocol options) (devtools_Protocol outside options).

(** Lines 211-222: the transport is created, for the child process or
    for [webSocketUrl]. *)
Definition create_wrapper (outside : Outside) (this : This.t)
    (webSocketUrl : option string) : Async unit :=
  if truthy (This.process this)
  then called NewStdioWrapper (new_StdioWrapper outside (This.process this))
  else if This.secure this then
    match webSocketUrl with
    | Some url =>
        called (NewWebSocket (Some (replace_ws_by_wss url)))
               (new_WebSocket outside (Some (replace_ws_by_wss url)))
    | None => reject (VError TypeError "Cannot read properties of undefined" None)
    end
  else called (NewWebSocket webSocketUrl) (new_WebSocket outside webSocketUrl).

(** Lines 242-267: an exception of the creation rejects the promise;
    otherwise the events of the transport settle it. *)
Definition _connect (outside : Outside) (this : This.t)
    (webSocketUrl : option string) : Async Value :=
  (create_wrapper outside this webSocketUrl;;
   ([], awaited (fold_left on_wrapper_event (wrapper_events outside) Pending)))%async.

(** Lines 125-131: the object [options] of [_start]. *)
Definition start_options (this : This.t) : Devtools.options :=
  {| Devtools.host := This.host this;
     Devtools.port := This.port this;
     Devtools.secure := This.secure this;
     Devtools.useHostName := This.useHostName this;
     Devtools.alterPath := This.alterPath this;
     Devtools.local := None |}.

(** Lines 133-143: the address of the socket ([this.webSocketUrl], which
    stays undefined for a child process) and the options as they are
    afterwards. *)
Definition locate (outside : Outside) (this : This.t) (options : Devtools.options)
  : Async (option string * Devtools.options) :=
  if negb (truthy (This.process this)) then
    (url <- _fetchDebuggerURL outside this options;;
     urlObject <- settled (parseUrl outside url);;
     pathname <- settled (Devtools.alterPath options (Url.pathname urlObject));;
     let urlObject :=
       {| Url.hostname := Url.hostname urlObject;
          Url.port := Url.port urlObject;
          Url.pathname := pathname;
          Url.rest := Url.rest urlObject |} in
     webSocketUrl <- settled (formatUrl outside urlObject);;
     resolve
       (Some webSocketUrl,
        {| Devtools.host := Url.hostname urlObject;
           Devtools.port := or_else (Url.port urlObject) (Devtools.port options);
           Devtools.secure := Devtools.secure options;
           Devtools.useHostName := Devtools.useHostName options;
           Devtools.alterPath := Devtools.alterPath options;
           Devtools.local := Devtools.local options |}))%async
  else resolve (None, options).

(** Lines 132-148: the block that [_start] tries. *)
Definition connecting (outside : Outside) (this : This.t) : Async Value :=
  (located <- locate outside this (start_options this);;
   protocol <- _fetchProtocol outside this located.2;;
   called (ApiPrepare protocol) (api_prepare outside protocol);;
   _connect outside this located.1)%async.

(** Lines 124-159: the requests of the startup, the notification
    included ('connect' in the next tick, 'error' from the catch). *)
Definition _start (outside : Outside) (this : This.t) : list Request :=
  let tried := connecting outside this in
  match tried.2 with
  | Resolved _ => tried.1 ++ [NotifyConnect]
  | Thrown err => tried.1 ++ [NotifyError err]
  | Unsettled => tried.1
  end.

(** ** Observations on the effects of a method *)

(** The envelopes handed to the transport, oldest first. *)
Fixpoint transmitted (l : list Effect) : list Ack :=
  match l with
  | [] => []
  | Transmit _ a :: rest => a :: transmitted rest
  | _ :: rest => transmitted rest
  end.

(** The functions a method invoked, each with its arguments. *)
Fixpoint invoked (l : list Effect) : list (Fn * list Value) :=
  match l with
  | [] => []
  | Invoke f args _ :: rest => (f, args) :: invoked rest
  | _ :: rest => invoked rest
  end.

(** How often the signal [name] was emitted. *)
Fixpoint emitted (name : string) (l : list Effect) : nat :=
  match l with
  | [] => 0%nat
  | Emit name' _ _ :: rest =>
      ((if String_eqb name name' then 1 else 0) + emitted name rest)%nat
  | _ :: rest => emitted name rest
  end.

(** The calls of send in a run. *)
Fixpoint sends (inputs : list Input) : nat :=
  match inputs with
  | [] => 0%nat
  | CallSend _ _ _ :: rest => S (sends rest)
  | _ :: rest => sends rest
  end.

(** [message.k], for a message that is not null. *)
Definition field (message : Json) (k : string) : Value :=
  default VUndefined (prop (VJson message) k).

(** The arguments a reply gives to its callback (lines 279-283). *)
Definition reply_arguments (message : Json) : list Value :=
  if truthy (field message "error")
  then [VBool true; field message "error"]
  else [VBool false; or_else (field message "result") (VObject [])].

(** A message whose id is truthy and names a member of Object.prototype,
    while no command is pending under that id: line 273 finds the
    member. *)
Definition finds_inherited (message : Json) (st : Chrome) : bool :=
  truthy (field message "id") &&
  match _callbacks st !! ToString (field message "id"),
        Object_prototype (ToString (field message "id")) with
  | None, Some _ => true
  | _, _ => false
  end.

(** Such a message, when the member returns from being called with the
    arguments of the reply. *)
Definition reaches_inherited (message : Json) (st : Chrome) : bool :=
  truthy (field message "id") &&
  match _callbacks st !! ToString (field message "id"),
        Object_prototype (ToString (field message "id")) with
  | None, Some member => returns member (reply_arguments message)
  | _, _ => false
  end.

(** The sends of a session that wait for their acknowledgement. *)
Definition waiting (st : Chrome) : list (Text * Ack) :=
  match ws st with Some w => unacked w | None => [] end.

(** [st'] differs from [st] at most by commands that left the pending map,
    by promises and by the listeners and ready state of the socket. *)
Definition frame (st st' : Chrome) : Prop :=
  _nextCommandId st' = _nextCommandId st /\
  (forall n x, waiting st' !! n = Some x -> exists n', waiting st !! n' = Some x) /\
  (is_Some (ws st) -> is_Some (ws st')) /\
  (forall key v, _callbacks st' !! key = Some v -> _callbacks st !! key = Some v).

(** A method that allocates no id, sends nothing and registers nothing. *)
Definition quiet {A} (m : M A) : Prop :=
  forall st, frame st (final (m st)) /\ transmitted (effects (m st)) = [].

(** How many 'disconnect' signals the socket of a session can still
    cause: none once it is closed, else one for each notifier attached to
    its 'close' event. *)
Definition disconnect_budget (st : Chrome) : nat :=
  match ws st with
  | Some w =>
      if readyState w =? 3 then 0%nat
      else length (filter (fun l => is_once l = false) (close_listeners w))
  | None => 0%nat
  end.

(** The close calls and socket closures among the inputs of a run. *)
Definition is_closing (i : Input) : Prop :=
  match i with
  | CallClose _ | SocketClosed => True
  | _ => False
  end.

(** The pending entry [key], [callback] belongs to the command of that id
    among the commands [sent] (the i-th of which has id i + 1). *)
Definition tracked (sent : list Ack) (key : string) (callback : Value) : Prop :=
  exists i a, sent !! i = Some a /\ key = pretty (1 + Z.of_nat i) /\
              ack_callback a = callback.

(** The session is consistent with the commands sent so far. *)
Definition consistent (sent : list Ack) (st : Chrome) : Prop :=
  is_Some (ws st) /\
  _nextCommandId st = 1 + Z.of_nat (length sent) /\
  (forall i a, sent !! i = Some a ->
     field (ack_message a) "id" = VJson (JNum (1 + Z.of_nat i))) /\
  (forall n data a, waiting st !! n = Some (data, a) -> exists i, sent !! i = Some a) /\
  (forall key callback, _callbacks st !! key = Some callback ->
     tracked sent key callback).


(** Target descriptors: one with a debugger endpoint, and one that is a
    page as well. *)
Definition has_url (target : Json) : bool :=
  truthy (default VUndefined (prop (VJson target) "webSocketDebuggerUrl")).

Definition is_page (target : Json) : bool :=
  match prop (VJson target) "type" with
  | Some (VJson (JStr type)) => String_eqb type "page"
  | _ => false
  end.

Definition inspectable_page (target : Json) : bool := has_url target && is_page target.

(** A target descriptor with the id [idOrUrl]. *)
Definition has_id (idOrUrl : string) (target : Json) : bool :=
  match field target "id" with
  | VJson (JStr id) => String_eqb id idOrUrl
  | _ => false
  end.

(** The requests of a startup that go to the notifier, and those that go
    to the discovery endpoint. *)
Definition is_notification (r : Request) : bool :=
  match r with
  | NotifyConnect | NotifyError _ => true
  | _ => false
  end.

Definition asks_endpoint (r : Request) : bool :=
  match r with
  | DevtoolsList _ | DevtoolsProtocol _ => true
  | _ => false
  end.

(** The outside with other events of the transport. *)
Definition with_wrapper_events (events : list WrapperEvent) (outside : Outside)
  : Outside :=
  {| defaults_HOST := defaults_HOST outside;
     defaults_PORT := defaults_PORT outside;
     devtools_List := devtools_List outside;
     devtools_Protocol := devtools_Protocol outside;
     api_prepare := api_prepare outside;
     parseUrl := parseUrl outside;
     formatUrl := formatUrl outside;
     new_WebSocket := new_WebSocket outside;
     new_StdioWrapper := new_StdioWrapper outside;
     wrapper_events := events |}.

(** * Properties *)

(** ** Symbolic execution of methods *)

Lemma outcome_eta {A} (r : Outcome A) : Out (completion r) (final r) (effects r) = r.
Proof. destruct r; reflexivity. Qed.

Lemma bind_ret {A B} (a : A) (k : A -> M B) st : bind (ret a) k st = k a st.
Proof. unfold bind, ret; cbn. apply outcome_eta. Qed.

Lemma bind_throw {A B} e (k : A -> M B) st : bind (throw e) k st = Out (Abrupt e) st [].
Proof. reflexivity. Qed.

Lemma bind_read {A B} (f : Chrome -> A) (k : A -> M B) st :
  bind (read f) k st = k (f st) st.
Proof. unfold bind, read; cbn. apply outcome_eta. Qed.

Lemma bind_modify {B} f (k : unit -> M B) st : bind (modify f) k st = k tt (f st).
Proof. unfold bind, modify; cbn. apply outcome_eta. Qed.

Lemma bind_tell {B} e (k : unit -> M B) st :
  bind (tell e) k st = prepend (e st) (k tt st).
Proof. reflexivity. Qed.

Lemma bind_lift_normal {A B} (a : A) (k : A -> M B) st :
  bind (lift (Normal a)) k st = k a st.
Proof. unfold bind, lift; cbn. apply outcome_eta. Qed.

Lemma bind_lift_abrupt {A B} e (k : A -> M B) st :
  bind (lift (Abrupt e)) k st = Out (Abrupt e) st [].
Proof. reflexivity. Qed.

Lemma bind_assoc {A B C} (m : M A) (k : A -> M B) (h : B -> M C) st :
  bind (bind m k) h st = bind m (fun a => bind (k a) h) st.
Proof.
  unfold bind; cbn. destruct (completion (m st)); cbn; [|reflexivity].
  destruct (completion (k a (final (m st)))); cbn; [|reflexivity].
  rewrite app_assoc. reflexivity.
Qed.

Lemma bind_type_error {A B} what (k : A -> M B) st :
  bind (type_error what) k st = Out (Abrupt (VError TypeError what None)) st [].
Proof. reflexivity. Qed.

Lemma final_bind {A B} (m : M A) (k : A -> M B) st :
  final (bind m k st) =
  match completion (m st) with
  | Normal a => final (k a (final (m st)))
  | Abrupt _ => final (m st)
  end.
Proof. unfold bind; cbn. destruct (completion (m st)); reflexivity. Qed.

Lemma effects_bind {A B} (m : M A) (k : A -> M B) st :
  effects (bind m k st) =
  effects (m st) ++
  match completion (m st) with
  | Normal a => effects (k a (final (m st)))
  | Abrupt _ => []
  end.
Proof.
  unfold bind; cbn. destruct (completion (m st)); cbn; [reflexivity|].
  rewrite app_nil_r. reflexivity.
Qed.

Create Rewrite HintDb js.
#[local] Hint Rewrite @bind_assoc @bind_ret @bind_throw @bind_read @bind_modify
  @bind_tell @bind_lift_normal @bind_lift_abrupt @bind_type_error : js.

Ltac exec := autorewrite with js; cbn [prepend completion final effects].

(** ** The default target selector *)

Lemma or_else_undefined v : or_else VUndefined v = v.
Proof. reflexivity. Qed.

Lemma or_else_truthy a b : truthy a = true -> or_else a b = a.
Proof. unfold or_else. intros ->. reflexivity. Qed.

Lemma has_url_truthy target : has_url target = true -> truthy (VJson target) = true.
Proof. destruct target; cbn; try discriminate; reflexivity. Qed.

Lemma scan_cons target rest backup :
  target <> JNull ->
  scan (target :: rest) backup =
  if has_url target then
    if is_page target
    then Some (VJson target, or_else backup (VJson target))
    else scan rest (or_else backup (VJson target))
  else scan rest backup.
Proof.
  intros Hnull. cbn [scan]. unfold has_url, is_page.
  destruct (prop (VJson target) "webSocketDebuggerUrl") as [url|] eqn:Hurl;
    [|destruct target; try discriminate; congruence].
  cbn [default from_option id]. destruct (truthy url); [|reflexivity].
  destruct (prop (VJson target) "type") as [[|[]| | |]|]; reflexivity.
Qed.

(** [scan] returns the first inspectable page, and leaves in [backup] the
    first entry with an endpoint among those it went through. *)
Lemma scan_find targets backup :
  Forall (fun target => target <> JNull) targets ->
  (backup = VUndefined \/ truthy backup = true) ->
  exists backup',
    scan targets backup = Some (of_option (find inspectable_page targets), backup') /\
    (find inspectable_page targets = None ->
     backup' = or_else backup (of_option (find has_url targets))).
Proof.
  intros Hnn. revert backup.
  induction Hnn as [|target rest Hnull _ IH]; intros backup Hb.
  - exists backup. split; [reflexivity|]. intros _.
    destruct Hb as [->|Hb]; [reflexivity|]. now rewrite or_else_truthy.
  - rewrite scan_cons by assumption. cbn [find]. unfold inspectable_page at 1 3.
    destruct (has_url target) eqn:Hu; cbn [andb].
    + destruct (is_page target).
      * eexists. split; [reflexivity|]. discriminate.
      * destruct (IH (or_else backup (VJson target))) as (b' & Hscan & Hb').
        { right. destruct Hb as [->|Hb]; [now apply has_url_truthy|].
          now rewrite or_else_truthy. }
        exists b'. split; [exact Hscan|]. intros Hnone.
        rewrite (Hb' Hnone). cbn [of_option].
        destruct Hb as [->|Hb].
        -- rewrite !or_else_undefined. apply or_else_truthy. now apply has_url_truthy.
        -- now rewrite !(or_else_truthy backup).
    + destruct (IH backup Hb) as (b' & Hscan & Hb').
      exists b'. split; [exact Hscan|exact Hb'].
Qed.

(** C8. For every discovered target list (no entry of which is null), the
    default selector returns the first entry of type 'page' that has a
    [webSocketDebuggerUrl] (the property is truthy); without such an entry
    it returns the first entry of any type that has one; and when no entry
    has one, the empty list included, it throws the error 'No inspectable
    targets'. *)
Theorem defaultTarget_selection (targets : list Json) :
  Forall (fun target => target <> JNull) targets ->
  (forall target, find inspectable_page targets = Some target ->
     defaultTarget targets = Normal (VJson target)) /\
  (forall target, find inspectable_page targets = None ->
     find has_url targets = Some target ->
     defaultTarget targets = Normal (VJson target)) /\
  (find has_url targets = None ->
     defaultTarget targets = Abrupt no_inspectable_targets) /\
  defaultTarget [] = Abrupt no_inspectable_targets.
Proof.
  intros Hnn.
  destruct (scan_find targets VUndefined Hnn (or_introl eq_refl))
    as (backup & Hscan & Hbackup).
  assert (Hsub : forall t, find inspectable_page targets = Some t -> has_url t = true).
  { intros t Ht. apply find_some in Ht as [_ Ht].
    unfold inspectable_page in Ht. now apply andb_prop in Ht as [? _]. }
  repeat split.
  - intros target Hfind. unfold defaultTarget. rewrite Hscan, Hfind.
    cbn [of_option]. rewrite or_else_truthy by (apply has_url_truthy; auto).
    now rewrite has_url_truthy by auto.
  - intros target Hnone Hfind. unfold defaultTarget. rewrite Hscan, Hnone.
    rewrite (Hbackup Hnone), Hfind. cbn [of_option].
    rewrite !or_else_undefined.
    apply find_some in Hfind as [_ Hfind]. now rewrite has_url_truthy.
  - intros Hnone. unfold defaultTarget. rewrite Hscan.
    destruct (find inspectable_page targets) as [t|] eqn:Hpage.
    + apply find_some in Hpage as [Hin Hpage].
      unfold inspectable_page in Hpage. apply andb_prop in Hpage as [Hurl _].
      eapply find_none in Hnone; [|exact Hin]. congruence.
    + rewrite (Hbackup eq_refl), Hnone. reflexivity.
Qed.

(** ** Calls, signals and promises leave the command state alone *)

Lemma emit_run name args st :
  emit name args st =
  Out (match listeners_throw name args st with
       | Some e => Abrupt e
       | None => Normal tt
       end) st [Emit name args st].
Proof. unfold emit. exec. destruct (listeners_throw name args st); reflexivity. Qed.

Lemma settle_run p s st :
  settle p s st =
  Out (Normal tt)
      (match promises st !! p with
       | Some Pending => set_promises (<[p := s]> (promises st)) st
       | _ => st
       end) [].
Proof. reflexivity. Qed.


Lemma call_run f args st :
  call (VFn f) args st = prepend (Invoke f args st) (body f args st).
Proof. unfold call. now rewrite bind_tell. Qed.

Lemma call_not_function callee args st :
  is_function callee = false ->
  call callee args st =
  Out (Abrupt (VError TypeError "callback is not a function" None)) st [].
Proof. destruct callee; cbn; try discriminate; reflexivity. Qed.

Lemma sendRaw_callback_frame p message error response st :
  let r := sendRaw_callback p message error response st in
  _callbacks (final r) = _callbacks st /\
  _nextCommandId (final r) = _nextCommandId st /\
  ws (final r) = ws st /\ effects r = [].
Proof.
  unfold sendRaw_callback.
  destruct (truthy error); [destruct (instanceof_Error error)|];
    try (rewrite settle_run; cbn [final effects];
         destruct (promises st !! p) as [[]|]; repeat split; reflexivity).
  destruct (ProtocolError message response) as [reason|e].
  - rewrite bind_lift_normal, settle_run; cbn [final effects].
    destruct (promises st !! p) as [[]|]; repeat split; reflexivity.
  - rewrite bind_lift_abrupt. repeat split; reflexivity.
Qed.

Lemma body_frame f args st :
  let r := body f args st in
  _callbacks (final r) = _callbacks st /\
  _nextCommandId (final r) = _nextCommandId st /\
  ws (final r) = ws st /\ effects r = [].
Proof.
  destruct f as [n|p message|p]; cbn [body].
  - rewrite bind_read. destruct (user_throws n args st); repeat split; reflexivity.
  - apply sendRaw_callback_frame.
  - rewrite settle_run; cbn [final effects].
    destruct (promises st !! p) as [[]|]; repeat split; reflexivity.
Qed.

Lemma call_frame callee args st :
  let r := call callee args st in
  _callbacks (final r) = _callbacks st /\
  _nextCommandId (final r) = _nextCommandId st /\
  ws (final r) = ws st /\
  effects r = match callee with VFn f => [Invoke f args st] | _ => [] end.
Proof.
  destruct callee as [|j|f|p|k m d];
    try (rewrite call_not_function by reflexivity; repeat split; reflexivity).
  rewrite call_run. cbn [prepend final effects].
  destruct (body_frame f args st) as (H1 & H2 & H3 & H4).
  rewrite H4. repeat split; assumption.
Qed.

Lemma Object_keys_empty (m : gmap string Value) :
  (length (Object_keys m) =? 0)%nat = bool_decide (m = ∅).
Proof.
  unfold Object_keys. rewrite length_fmap.
  destruct (decide (m = ∅)) as [->|Hne].
  - rewrite map_to_list_empty. now rewrite bool_decide_eq_true_2.
  - rewrite bool_decide_eq_false_2 by assumption.
    destruct (map_to_list m) eqn:Hl; [|reflexivity].
    now apply map_to_list_empty_iff in Hl.
Qed.

(** ** The message router, branch by branch *)

Lemma prop_field m k : m <> JNull -> prop (VJson m) k = Some (field m k).
Proof. unfold field. destruct m; cbn; congruence. Qed.

Lemma get_field {B} m k (cont : Value -> M B) st :
  m <> JNull -> bind (get (VJson m) k) cont st = cont (field m k) st.
Proof. intros Hm. unfold get. rewrite (prop_field m k Hm). apply bind_ret. Qed.

(** The message null: reading its id is a TypeError. *)
Lemma handle_null st :
  exists what, _handleMessage JNull st = Out (Abrupt (VError TypeError what None)) st [].
Proof. eexists. reflexivity. Qed.

(** Neither a truthy id nor a truthy method: nothing happens. *)
Lemma handle_ignored m st :
  m <> JNull -> truthy (field m "id") = false -> truthy (field m "method") = false ->
  _handleMessage m st = Out (Normal tt) st [].
Proof.
  intros Hm Hid Hmethod. unfold _handleMessage.
  rewrite get_field, Hid, get_field, Hmethod by assumption. reflexivity.
Qed.

Lemma truthy_field_not_null m k : truthy (field m k) = true -> m <> JNull.
Proof. intros H ->. discriminate. Qed.

(** What the read of [this._callbacks[key]] finds. *)
Lemma lookup_held (cbs : gmap string Value) key v :
  cbs !! key = Some v -> lookup_callbacks cbs key = Held v.
Proof. unfold lookup_callbacks. now intros ->. Qed.

Lemma lookup_missing (cbs : gmap string Value) key :
  cbs !! key = None -> Object_prototype key = None ->
  lookup_callbacks cbs key = Held VUndefined.
Proof. unfold lookup_callbacks. now intros -> ->. Qed.

Lemma lookup_inherited (cbs : gmap string Value) key member :
  cbs !! key = None -> Object_prototype key = Some member ->
  lookup_callbacks cbs key = Inherited key member.
Proof. unfold lookup_callbacks. now intros -> ->. Qed.

Lemma lookup_truthy (cbs : gmap string Value) key :
  truthy (default VUndefined (cbs !! key)) = true ->
  lookup_callbacks cbs key = Held (default VUndefined (cbs !! key)).
Proof.
  unfold lookup_callbacks. destruct (cbs !! key); [reflexivity|discriminate].
Qed.

(** The keys that are decimal numbers name no member of Object.prototype. *)
Lemma pretty_N_go_head x s :
  (0 < x)%N ->
  exists d rest, (d < 10)%N /\ pretty_N_go x s = String (pretty_N_char d) rest.
Proof.
  revert s. induction (N.lt_wf_0 x) as [x _ IH]; intros s Hx.
  rewrite pretty_N_go_step by exact Hx.
  destruct (N.eq_0_gt_0_cases (x `div` 10)) as [H0|Hpos].
  - rewrite H0, pretty_N_go_0. exists (x `mod` 10)%N, s. split; [|reflexivity].
    apply N.mod_lt. lia.
  - apply IH; [|exact Hpos]. apply N.div_lt; lia.
Qed.

Lemma pretty_Z_head (n : Z) :
  exists c rest, pretty n = String c rest /\
    (c = Ascii.ascii_of_nat 45 \/ exists d, (d < 10)%N /\ c = pretty_N_char d).
Proof.
  destruct n as [|p|p].
  - exists (pretty_N_char 0), EmptyString. split; [reflexivity|].
    right. exists 0%N. split; [lia|reflexivity].
  - destruct (pretty_N_go_head (N.pos p) EmptyString) as (d & rest & Hd & Heq); [lia|].
    exists (pretty_N_char d), rest. split; [|right; eauto].
    unfold pretty, pretty_Z, pretty, pretty_positive, pretty, pretty_N.
    rewrite decide_False by lia. exact Heq.
  - eexists (Ascii.ascii_of_nat 45), _. split; [reflexivity|]. now left.
Qed.

Lemma number_names_no_member (n : Z) : Object_prototype (pretty n) = None.
Proof.
  destruct (pretty_Z_head n) as (c & rest & -> & [->|(d & Hd & ->)]); [reflexivity|].
  assert (d = 0 \/ d = 1 \/ d = 2 \/ d = 3 \/ d = 4 \/ d = 5 \/ d = 6 \/ d = 7
          \/ d = 8 \/ d = 9)%N as Hcases by lia.
  repeat (destruct Hcases as [->|Hcases]; [reflexivity|]). subst d. reflexivity.
Qed.

Lemma set_callbacks_delete_missing key st :
  _callbacks st !! key = None -> set_callbacks (delete key) st = st.
Proof.
  intros Hnone. destruct st as [cbs n w ps]. unfold set_callbacks.
  cbn [_callbacks _nextCommandId ws promises] in *. now rewrite delete_id.
Qed.

(** A truthy id under which nothing truthy is found: nothing happens. *)
Lemma handle_unknown m st :
  m <> JNull -> truthy (field m "id") = true ->
  Callee_truthy (lookup_callbacks (_callbacks st) (ToString (field m "id"))) = false ->
  _handleMessage m st = Out (Normal tt) st [].
Proof.
  intros Hm Hid Hcb. unfold _handleMessage.
  rewrite get_field, Hid, bind_read, Hcb by assumption. reflexivity.
Qed.

(** A truthy id under which something truthy is found: what is left of
    the method, and its outcome from the outcome of the call. *)
Lemma handle_found m st :
  m <> JNull -> truthy (field m "id") = true ->
  let key := ToString (field m "id") in
  let callee := lookup_callbacks (_callbacks st) key in
  Callee_truthy callee = true ->
  _handleMessage m st =
  (call_callee callee (reply_arguments m);;
   modify (set_callbacks (delete key));;
   cbs <- read _callbacks;;
   if (length (Object_keys cbs) =? 0)%nat then emit "ready" [] else ret tt) st.
Proof.
  intros Hm Hid key callee Hcb. unfold _handleMessage, reply_arguments.
  rewrite get_field, Hid, bind_read by assumption.
  fold key. fold callee. rewrite Hcb. cbn [negb].
  rewrite get_field by assumption.
  destruct (truthy (field m "error")); [reflexivity|].
  rewrite bind_assoc, get_field by assumption. reflexivity.
Qed.

Lemma handle_found_outcome m st :
  m <> JNull -> truthy (field m "id") = true ->
  let key := ToString (field m "id") in
  let callee := lookup_callbacks (_callbacks st) key in
  let r := call_callee callee (reply_arguments m) st in
  let st' := set_callbacks (delete key) (final r) in
  Callee_truthy callee = true ->
  _handleMessage m st =
  match completion r with
  | Abrupt e => Out (Abrupt e) (final r) (effects r)
  | Normal _ =>
      if bool_decide (_callbacks st' = ∅)
      then Out (match listeners_throw "ready" [] st' with
                | Some e => Abrupt e
                | None => Normal tt
                end) st' (effects r ++ [Emit "ready" [] st'])
      else Out (Normal tt) st' (effects r)
  end.
Proof.
  intros Hm Hid key callee r st' Hcb.
  rewrite handle_found by assumption. fold key callee.
  unfold bind at 1. fold r. destruct (completion r); [|reflexivity].
  rewrite bind_modify, bind_read. fold st'. rewrite Object_keys_empty.
  destruct (bool_decide (_callbacks st' = ∅)).
  - rewrite emit_run. reflexivity.
  - cbn. now rewrite app_nil_r.
Qed.

(** A truthy id that names a member of Object.prototype, and no pending
    command: the member is called, and 'ready' is emitted when it returns
    and nothing is pending. *)
Lemma handle_inherited m st member :
  truthy (field m "id") = true ->
  _callbacks st !! ToString (field m "id") = None ->
  Object_prototype (ToString (field m "id")) = Some member ->
  _handleMessage m st =
  if callable member then
    if returns member (reply_arguments m) then
      if bool_decide (_callbacks st = ∅)
      then Out (match listeners_throw "ready" [] st with
                | Some e => Abrupt e
                | None => Normal tt
                end) st
               [CallInherited (ToString (field m "id")) (reply_arguments m);
                Emit "ready" [] st]
      else Out (Normal tt) st
               [CallInherited (ToString (field m "id")) (reply_arguments m)]
    else Out (Abrupt (VError TypeError "called without a receiver" None)) st
             [CallInherited (ToString (field m "id")) (reply_arguments m)]
  else Out (Abrupt (VError TypeError "callback is not a function" None)) st [].
Proof.
  intros Hid Hnone Hmember. pose proof (truthy_field_not_null _ _ Hid) as Hm.
  rewrite handle_found_outcome
    by (rewrite ?(lookup_inherited _ _ _ Hnone Hmember); auto).
  rewrite (lookup_inherited _ _ _ Hnone Hmember). cbn [call_callee].
  destruct (callable member); [|reflexivity].
  rewrite bind_tell. cbn [prepend completion final effects].
  destruct (returns member (reply_arguments m)); [|reflexivity].
  cbn [ret completion final effects app].
  rewrite (set_callbacks_delete_missing _ _ Hnone). reflexivity.
Qed.

(** A truthy id with a callback: what is left of the method. *)
Lemma handle_reply m st :
  m <> JNull -> truthy (field m "id") = true ->
  let key := ToString (field m "id") in
  let callback := default VUndefined (_callbacks st !! key) in
  truthy callback = true ->
  _handleMessage m st =
  (call callback
        (if truthy (field m "error")
         then [VBool true; field m "error"]
         else [VBool false; or_else (field m "result") (VObject [])]);;
   modify (set_callbacks (delete key));;
   cbs <- read _callbacks;;
   if (length (Object_keys cbs) =? 0)%nat then emit "ready" [] else ret tt) st.
Proof.
  intros Hm Hid key callback Hcb. unfold callback, key in *.
  pose proof (lookup_truthy _ _ Hcb) as Hheld.
  rewrite handle_found by (rewrite ?Hheld; auto).
  rewrite Hheld. reflexivity.
Qed.

(** No truthy id, a truthy method: the message is an event. *)
Lemma handle_event m st :
  m <> JNull -> truthy (field m "id") = false -> truthy (field m "method") = true ->
  _handleMessage m st =
  (emit "event" [VJson m];; emit (ToString (field m "method")) [field m "params"]) st.
Proof.
  intros Hm Hid Hmethod. unfold _handleMessage.
  rewrite get_field, Hid, get_field, Hmethod by assumption.
  unfold bind at 1 3. rewrite !emit_run. cbn [completion final effects].
  destruct (listeners_throw "event" [VJson m] st); [reflexivity|].
  rewrite get_field, emit_run by assumption. reflexivity.
Qed.

(** The outcome of a reply that found its callback, from the outcome of
    the call. *)
Lemma handle_reply_outcome m st :
  m <> JNull -> truthy (field m "id") = true ->
  let key := ToString (field m "id") in
  let callback := default VUndefined (_callbacks st !! key) in
  let args := if truthy (field m "error")
              then [VBool true; field m "error"]
              else [VBool false; or_else (field m "result") (VObject [])] in
  let r := call callback args st in
  let st' := set_callbacks (delete key) (final r) in
  truthy callback = true ->
  _handleMessage m st =
  match completion r with
  | Abrupt e => Out (Abrupt e) (final r) (effects r)
  | Normal _ =>
      if bool_decide (_callbacks st' = ∅)
      then Out (match listeners_throw "ready" [] st' with
                | Some e => Abrupt e
                | None => Normal tt
                end) st' (effects r ++ [Emit "ready" [] st'])
      else Out (Normal tt) st' (effects r)
  end.
Proof.
  intros Hm Hid key callback args r st' Hcb.
  rewrite handle_reply by assumption. fold key callback args.
  unfold bind at 1. fold r. destruct (completion r); [|reflexivity].
  rewrite bind_modify, bind_read. fold st'. rewrite Object_keys_empty.
  destruct (bool_decide (_callbacks st' = ∅)).
  - rewrite emit_run. reflexivity.
  - cbn. now rewrite app_nil_r.
Qed.

Lemma lookup_callback (cbs : gmap string Value) key v :
  cbs !! key = Some v -> default VUndefined (cbs !! key) = v.
Proof. now intros ->. Qed.

(** C3 (amended). For every inbound message with a truthy id under which
    a callback function is pending: if the message's [error] field is
    truthy, the callback is invoked in the error branch with that field's
    content; otherwise it is invoked in the success branch, with the
    [result] field when that is truthy and with an empty object when
    [result] is absent or falsy. *)
Theorem reply_callback_arguments (m : Json) (st : Chrome) (f : Fn) :
  truthy (field m "id") = true ->
  _callbacks st !! ToString (field m "id") = Some (VFn f) ->
  (truthy (field m "error") = true ->
   exists rest, effects (_handleMessage m st) =
                Invoke f [VBool true; field m "error"] st :: rest) /\
  (truthy (field m "error") = false -> truthy (field m "result") = true ->
   exists rest, effects (_handleMessage m st) =
                Invoke f [VBool false; field m "result"] st :: rest) /\
  (truthy (field m "error") = false -> truthy (field m "result") = false ->
   exists rest, effects (_handleMessage m st) =
                Invoke f [VBool false; VObject []] st :: rest).
Proof.
  intros Hid Hcb. pose proof (truthy_field_not_null _ _ Hid) as Hm.
  assert (Hrun : forall args,
    (if truthy (field m "error")
     then [VBool true; field m "error"]
     else [VBool false; or_else (field m "result") (VObject [])]) = args ->
    exists rest, effects (_handleMessage m st) = Invoke f args st :: rest).
  { intros args Hargs. rewrite handle_reply by (rewrite ?(lookup_callback _ _ _ Hcb); auto).
    rewrite (lookup_callback _ _ _ Hcb), Hargs, effects_bind, call_run.
    cbn [prepend effects app]. eexists. reflexivity. }
  repeat split.
  - intros He. apply Hrun. now rewrite He.
  - intros He Hr. apply Hrun. rewrite He. unfold or_else. now rewrite Hr.
  - intros He Hr. apply Hrun. rewrite He. unfold or_else. now rewrite Hr.
Qed.





Lemma not_callable_never_returns member args :
  callable member = false -> returns member args = false.
Proof. now destruct member. Qed.


Lemma emitted_app name l1 l2 :
  emitted name (l1 ++ l2) = (emitted name l1 + emitted name l2)%nat.
Proof.
  induction l1 as [|[] l1 IH]; cbn [emitted app]; rewrite ?IH; try reflexivity.
  now rewrite Nat.add_assoc.
Qed.

Lemma call_emits_nothing name callee args st :
  emitted name (effects (call callee args st)) = 0%nat.
Proof.
  destruct (call_frame callee args st) as (_ & _ & _ & ->). now destruct callee.
Qed.

Lemma call_no_emit callee args st name a seen :
  ~ In (Emit name a seen) (effects (call callee args st)).
Proof.
  destruct (call_frame callee args st) as (_ & _ & _ & ->).
  destruct callee; cbn; intuition discriminate.
Qed.

(** Apart from an inbound event that is itself named 'ready', a message
    makes the session emit 'ready' in two cases, once in each and not at
    all otherwise: when processing it takes the pending map from non-empty
    to empty; and when nothing is pending and its id names a member of
    Object.prototype that returns from being called as the callback (the
    map is empty before and after).  In every case 'ready' is emitted only
    on a session whose pending map is empty. *)
Lemma ready_emission (m : Json) (st : Chrome) :
  truthy (field m "id") = true \/ ToString (field m "method") <> "ready" ->
  ((emitted "ready" (effects (_handleMessage m st)) = 1%nat /\
    ((_callbacks st <> ∅ /\ _callbacks (final (_handleMessage m st)) = ∅) \/
     (reaches_inherited m st = true /\ _callbacks st = ∅))) \/
   (emitted "ready" (effects (_handleMessage m st)) = 0%nat /\
    ~ (_callbacks st <> ∅ /\ _callbacks (final (_handleMessage m st)) = ∅) /\
    ~ (reaches_inherited m st = true /\ _callbacks st = ∅))) /\
  (forall args seen,
     In (Emit "ready" args seen) (effects (_handleMessage m st)) ->
     _callbacks seen = ∅).
Proof.
  intros Hscope.
  assert (Hsame : forall r : Outcome unit, r = Out (completion r) st [] ->
            reaches_inherited m st = false ->
            ((emitted "ready" (effects r) = 1%nat /\
              ((_callbacks st <> ∅ /\ _callbacks (final r) = ∅) \/
               (reaches_inherited m st = true /\ _callbacks st = ∅))) \/
             (emitted "ready" (effects r) = 0%nat /\
              ~ (_callbacks st <> ∅ /\ _callbacks (final r) = ∅) /\
              ~ (reaches_inherited m st = true /\ _callbacks st = ∅))) /\
            (forall args seen, In (Emit "ready" args seen) (effects r) ->
                               _callbacks seen = ∅)).
  { intros r -> Hno. cbn. rewrite Hno.
    split; [right; split; [reflexivity|split; [tauto|intros [? _]; discriminate]]|tauto]. }
  assert (Hnull : m = JNull \/ m <> JNull) by (destruct m; auto; right; discriminate).
  destruct Hnull as [->|Hm].
  { apply Hsame; reflexivity. }
  destruct (truthy (field m "id")) eqn:Hid.
  - destruct (_callbacks st !! ToString (field m "id")) as [callback|] eqn:Hown.
    + assert (Hno : reaches_inherited m st = false).
      { unfold reaches_inherited. now rewrite Hid, Hown. }
      destruct (truthy callback) eqn:Hcb.
      * rewrite handle_reply_outcome by (rewrite ?Hown; auto).
        rewrite Hown. cbn [default from_option id]. rewrite Hno.
        set (args := if truthy (field m "error") then _ else _).
        destruct (call_frame callback args st) as (Hcbs & _ & _ & _).
        pose proof (call_emits_nothing "ready" callback args st) as Hquiet.
        pose proof (call_no_emit callback args st "ready") as Hno'.
        set (st' := set_callbacks _ _).
        assert (Hst : _callbacks st <> ∅).
        { intros Hempty. rewrite Hempty, lookup_empty in Hown. discriminate. }
        assert (Hnever : ~ (false = true /\ _callbacks st = ∅))
          by (intros [? _]; discriminate).
        destruct (completion (call callback args st)).
        -- destruct (bool_decide (_callbacks st' = ∅)) eqn:Hdec; cbn [effects final].
           ++ apply bool_decide_eq_true_1 in Hdec. split.
              ** left. rewrite emitted_app, Hquiet. cbn. auto.
              ** intros args0 seen Hin. apply in_app_or in Hin as [Hin|[Heq|[]]].
                 --- now apply Hno' in Hin.
                 --- now injection Heq as _ <-.
           ++ apply bool_decide_eq_false_1 in Hdec. split.
              ** right. split; [exact Hquiet|]. split; [tauto|exact Hnever].
              ** intros args0 seen Hin. now apply Hno' in Hin.
        -- cbn [effects final]. split.
           ++ right. split; [exact Hquiet|]. rewrite Hcbs. split; [tauto|exact Hnever].
           ++ intros args0 seen Hin. now apply Hno' in Hin.
      * rewrite handle_unknown by (rewrite ?(lookup_held _ _ _ Hown); auto).
        apply Hsame; [reflexivity|exact Hno].
    + destruct (Object_prototype (ToString (field m "id"))) as [member|] eqn:Hmember.
      * assert (Hreach : reaches_inherited m st = returns member (reply_arguments m)).
        { unfold reaches_inherited. now rewrite Hid, Hown, Hmember. }
        rewrite (handle_inherited m st member Hid Hown Hmember), Hreach.
        destruct (callable member) eqn:Hcallable.
        -- destruct (returns member (reply_arguments m)).
           ++ destruct (bool_decide (_callbacks st = ∅)) eqn:Hdec;
                cbn [effects final emitted].
              ** apply bool_decide_eq_true_1 in Hdec.
                 change (String_eqb "ready" "ready") with true. split.
                 --- left. split; [reflexivity|]. right. auto.
                 --- intros args0 seen [Heq|[Heq|[]]]; [discriminate|].
                     now injection Heq as _ <-.
              ** apply bool_decide_eq_false_1 in Hdec. split.
                 --- right. split; [reflexivity|]. tauto.
                 --- intros args0 seen [Heq|[]]. discriminate.
           ++ cbn [effects final emitted]. split.
              ** right. split; [reflexivity|]. split; [tauto|].
                 intros [? _]; discriminate.
              ** intros args0 seen [Heq|[]]. discriminate.
        -- rewrite (not_callable_never_returns _ _ Hcallable).
           cbn [effects final emitted]. split.
           ++ right. split; [reflexivity|]. split; [tauto|].
              intros [? _]; discriminate.
           ++ intros args0 seen [].
      * rewrite handle_unknown by (rewrite ?(lookup_missing _ _ Hown Hmember); auto).
        apply Hsame; [reflexivity|].
        unfold reaches_inherited. now rewrite Hid, Hown, Hmember.
  - assert (Hno : reaches_inherited m st = false).
    { unfold reaches_inherited. now rewrite Hid. }
    destruct Hscope as [?|Hname]; [discriminate|].
    destruct (truthy (field m "method")) eqn:Hmethod.
    + rewrite handle_event by assumption. rewrite Hno.
      unfold bind. rewrite !emit_run. cbn [completion final effects].
      assert (Hneq : String_eqb "ready" (ToString (field m "method")) = false).
      { unfold String_eqb. apply bool_decide_eq_false_2. congruence. }
      assert (Hnever : ~ (false = true /\ _callbacks st = ∅))
        by (intros [? _]; discriminate).
      destruct (listeners_throw "event" [VJson m] st); cbn [completion final effects app].
      * split; [right; cbn; split; [reflexivity|tauto]|].
        intros args0 seen [Heq|[]]. discriminate.
      * split; [right; cbn [emitted]; rewrite Hneq; split; [reflexivity|tauto]|].
        intros args0 seen [Heq|[Heq|[]]]; [discriminate|]. injection Heq as Heq _ _.
        congruence.
    + rewrite handle_ignored by assumption. apply Hsame; [reflexivity|exact Hno].
Qed.

Lemma reaches_finds m st :
  finds_inherited m st = false -> reaches_inherited m st = false.
Proof.
  unfold finds_inherited, reaches_inherited.
  destruct (truthy (field m "id")); [|reflexivity]. cbn [andb].
  destruct (_callbacks st !! ToString (field m "id")); [reflexivity|].
  destruct (Object_prototype (ToString (field m "id"))); [discriminate|reflexivity].
Qed.

(** C7 (amended). Apart from an inbound event that is itself named
    'ready', and for every message whose id is not taken for the name of a
    member of Object.prototype (line 273 finds the callback pending under
    the id, or nothing), the session emits 'ready' exactly when processing
    the message takes the pending map from non-empty to empty: once for
    such a transition and not at all otherwise, and only on a session
    whose pending map is empty. *)
Theorem ready_on_transition_to_idle (m : Json) (st : Chrome) :
  truthy (field m "id") = true \/ ToString (field m "method") <> "ready" ->
  finds_inherited m st = false ->
  ((emitted "ready" (effects (_handleMessage m st)) = 1%nat /\
    _callbacks st <> ∅ /\ _callbacks (final (_handleMessage m st)) = ∅) \/
   (emitted "ready" (effects (_handleMessage m st)) = 0%nat /\
    ~ (_callbacks st <> ∅ /\ _callbacks (final (_handleMessage m st)) = ∅))) /\
  (forall args seen,
     In (Emit "ready" args seen) (effects (_handleMessage m st)) ->
     _callbacks seen = ∅).
Proof.
  intros Hscope Hfinds. apply reaches_finds in Hfinds.
  destruct (ready_emission m st Hscope) as [Hcount Hseen]. split; [|exact Hseen].
  rewrite Hfinds in Hcount.
  destruct Hcount as [(Hone & [Htransition|[Hno _]])|(Hzero & Hnot & _)].
  - left. split; [exact Hone|exact Htransition].
  - discriminate.
  - right. split; [exact Hzero|exact Hnot].
Qed.

(** C4 (amended). A parsed message that is not null and carries neither a
    truthy id nor a truthy method is dropped without effect: normal
    return, the session unchanged, no callback invoked, no signal emitted.
    A text that is not JSON invokes no callback, emits no signal and
    leaves the session unchanged as well, but it is not dropped silently:
    the SyntaxError of [JSON.parse] leaves the message listener
    uncaught. *)
Theorem malformed_message (st : Chrome) :
  (forall m, m <> JNull ->
     truthy (field m "id") = false -> truthy (field m "method") = false ->
     on_message (TextOf m) st = Out (Normal tt) st []) /\
  (forall s, exists what,
     on_message (NotJson s) st = Out (Abrupt (VError SyntaxError what None)) st []).
Proof.
  split.
  - intros m Hm Hid Hmethod. unfold on_message. cbn [JSON_parse].
    rewrite bind_lift_normal. now apply handle_ignored.
  - intros s. eexists. reflexivity.
Qed.

(** ** The command dispatcher *)

Lemma _enqueueCommand_run message callback st w :
  ws st = Some w ->
  let envelope := JObj (spread_over [("id", JNum (_nextCommandId st))] message) in
  let a := {| ack_message := envelope; ack_callback := callback |} in
  _enqueueCommand message callback st =
  Out (Normal tt)
      (set_ws (ws_send (JSON_stringify envelope) a w)
              (set_nextCommandId (_nextCommandId st + 1) st))
      [Transmit (JSON_stringify envelope) a].
Proof.
  intros Hw envelope a. unfold _enqueueCommand, _send.
  rewrite bind_read, bind_modify, bind_read. cbn [ws set_nextCommandId].
  rewrite Hw. rewrite bind_tell. reflexivity.
Qed.

(** The envelope of [send] carries the allocated id. *)
Lemma send_envelope_id id method params :
  field (JObj (spread_over [("id", JNum id)]
                 (JObj [("method", method); ("params", params)]))) "id"
  = VJson (JNum id).
Proof. reflexivity. Qed.

Lemma acknowledge_failure a err st :
  truthy err = true ->
  acknowledge a err st =
  if is_function (ack_callback a) then call (ack_callback a) [err] st
  else Out (Normal tt) st [].
Proof. intros He. unfold acknowledge. rewrite He. now destruct (is_function _). Qed.

Lemma acknowledge_success a err st :
  truthy err = false -> ack_message a <> JNull ->
  acknowledge a err st =
  Out (Normal tt)
      (set_callbacks (insert (ToString (field (ack_message a) "id")) (ack_callback a)) st)
      [].
Proof.
  intros He Hm. unfold acknowledge. rewrite He, get_field by assumption. reflexivity.
Qed.

(** C5. For every command sent by [send] with a callback on a connected
    session:
    the call hands the envelope with the allocated id to the transport and
    returns undefined at once, the pending map untouched; when the
    transport acknowledges a failure (a truthy error) the callback is
    invoked with that error and no entry is added to the pending map; when
    it acknowledges success the callback is registered in the pending map
    under the allocated id. *)
Theorem send_with_callback (method : Json) (params callback : Value) (f : Fn)
    (st : Chrome) (w : WebSocket) :
  ws st = Some w ->
  (if is_function params then params else callback) = VFn f ->
  exists data a,
    send method params callback st =
      Out (Normal VUndefined)
          (set_ws (ws_send data a w) (set_nextCommandId (_nextCommandId st + 1) st))
          [Transmit data a] /\
    ack_callback a = VFn f /\
    field (ack_message a) "id" = VJson (JNum (_nextCommandId st)) /\
    (forall err st', truthy err = true ->
       effects (acknowledge a err st') = [Invoke f [err] st'] /\
       _callbacks (final (acknowledge a err st')) = _callbacks st') /\
    (forall err st', truthy err = false ->
       acknowledge a err st' =
       Out (Normal tt)
           (set_callbacks (insert (pretty (_nextCommandId st)) (VFn f)) st') []).
Proof.
  intros Hw Hcb. unfold send, sendRaw. rewrite Hcb. cbn [is_function].
  unfold bind. rewrite (_enqueueCommand_run _ _ _ _ Hw).
  cbn [completion final effects ret app].
  eexists _, _. split; [reflexivity|]. cbn [ack_callback ack_message].
  split; [reflexivity|]. split; [apply send_envelope_id|]. split.
  - intros err st' He. rewrite acknowledge_failure by assumption.
    cbn [ack_callback is_function].
    destruct (call_frame (VFn f) [err] st') as (H1 & _ & _ & H4). auto.
  - intros err st' He. rewrite acknowledge_success by (cbn; congruence).
    cbn [ack_callback ack_message]. now rewrite send_envelope_id.
Qed.

Lemma new_promise_run {B} (k : nat -> M B) st :
  bind new_promise k st =
  k (length (promises st)) (set_promises (promises st ++ [Pending]) st).
Proof. unfold new_promise. exec. reflexivity. Qed.

Lemma sendRaw_promise message callback st w :
  ws st = Some w -> is_function callback = false ->
  let p := length (promises st) in
  let envelope := JObj (spread_over [("id", JNum (_nextCommandId st))] message) in
  let a := {| ack_message := envelope;
              ack_callback := VFn (SendRawCallback p message) |} in
  sendRaw message callback st =
  Out (Normal (VPromise p))
      (set_ws (ws_send (JSON_stringify envelope) a w)
         (set_nextCommandId (_nextCommandId st + 1)
            (set_promises (promises st ++ [Pending]) st)))
      [Transmit (JSON_stringify envelope) a].
Proof.
  intros Hw Hcb p envelope a. unfold sendRaw. rewrite Hcb, new_promise_run.
  fold p. unfold bind, catch.
  rewrite (_enqueueCommand_run _ _ _ w) by exact Hw.
  cbn [completion final effects ret app _nextCommandId set_promises]. reflexivity.
Qed.






(** ** Runs: the ids of commands and the routing of replies *)

Lemma frame_refl st : frame st st.
Proof. unfold frame. eauto. Qed.

Lemma frame_trans st1 st2 st3 : frame st1 st2 -> frame st2 st3 -> frame st1 st3.
Proof.
  intros (H1 & H2 & H3 & H4) (K1 & K2 & K3 & K4). unfold frame.
  repeat split; [congruence| |auto|auto].
  intros n x Hx. apply K2 in Hx as [n' Hx]. eauto.
Qed.

Lemma transmitted_app l1 l2 : transmitted (l1 ++ l2) = transmitted l1 ++ transmitted l2.
Proof. induction l1 as [|[] l1 IH]; cbn; rewrite ?IH; reflexivity. Qed.

Lemma quiet_ret {A} (a : A) : quiet (ret a).
Proof. intros st. split; [apply frame_refl|reflexivity]. Qed.

Lemma quiet_throw {A} e : quiet (@throw A e).
Proof. intros st. split; [apply frame_refl|reflexivity]. Qed.

Lemma quiet_read {A} (f : Chrome -> A) : quiet (read f).
Proof. intros st. split; [apply frame_refl|reflexivity]. Qed.

Lemma quiet_lift {A} (c : Completion A) : quiet (lift c).
Proof. intros st. split; [apply frame_refl|reflexivity]. Qed.

Lemma quiet_bind {A B} (m : M A) (k : A -> M B) :
  quiet m -> (forall a, quiet (k a)) -> quiet (bind m k).
Proof.
  intros Hm Hk st. destruct (Hm st) as [Hf Ht].
  rewrite final_bind, effects_bind, transmitted_app, Ht.
  destruct (completion (m st)) as [a|e].
  - destruct (Hk a (final (m st))) as [Hf' Ht']. split; [|exact Ht'].
    eapply frame_trans; eassumption.
  - split; [assumption|reflexivity].
Qed.

Lemma quiet_catch {A} (m : M A) (h : Value -> M A) :
  quiet m -> (forall e, quiet (h e)) -> quiet (catch m h).
Proof.
  intros Hm Hh st. destruct (Hm st) as [Hf Ht]. unfold catch.
  destruct (completion (m st)) as [a|e]; [split; assumption|].
  destruct (Hh e (final (m st))) as [Hf' Ht']. cbn [final effects].
  rewrite transmitted_app, Ht, Ht'. split; [|reflexivity].
  eapply frame_trans; eassumption.
Qed.

Lemma quiet_get v k : quiet (get v k).
Proof. unfold get. destruct (prop v k); [apply quiet_ret|apply quiet_throw]. Qed.

Lemma quiet_emit name args : quiet (emit name args).
Proof. intros st. rewrite emit_run. split; [apply frame_refl|reflexivity]. Qed.

Lemma quiet_call callee args : quiet (call callee args).
Proof.
  intros st. destruct (call_frame callee args st) as (H1 & H2 & H3 & H4).
  split.
  - unfold frame, waiting. rewrite H1, H2, H3. eauto.
  - rewrite H4. now destruct callee.
Qed.

Lemma frame_set_promises ps st : frame st (set_promises ps st).
Proof. unfold frame, waiting. cbn. eauto. Qed.

Lemma quiet_settle p s : quiet (settle p s).
Proof.
  intros st. rewrite settle_run. cbn [final effects]. split; [|reflexivity].
  destruct (promises st !! p) as [[]|];
    first [apply frame_refl|apply frame_set_promises].
Qed.

Lemma quiet_new_promise : quiet new_promise.
Proof.
  unfold new_promise. apply quiet_bind; [apply quiet_read|intros p].
  apply quiet_bind; [|intros _; apply quiet_ret].
  intros st. split; [apply frame_set_promises|reflexivity].
Qed.

Lemma quiet_delete key : quiet (modify (set_callbacks (delete key))).
Proof.
  intros st. split; [|reflexivity]. unfold frame, waiting. cbn.
  repeat split; eauto. intros k v Hk. apply lookup_delete_Some in Hk. tauto.
Qed.

(** Changes of the socket that keep its waiting sends. *)
Lemma frame_set_ws (w' : WebSocket) st :
  (forall n x, unacked w' !! n = Some x -> exists n', waiting st !! n' = Some x) ->
  frame st (set_ws w' st).
Proof.
  intros Hw. split; [reflexivity|]. split; [exact Hw|].
  split; [intros _; now eexists|auto].
Qed.

Lemma frame_same_unacked (w w' : WebSocket) st :
  ws st = Some w -> unacked w' = unacked w -> frame st (set_ws w' st).
Proof.
  intros Hw Heq. apply frame_set_ws. unfold waiting. rewrite Hw, Heq. eauto.
Qed.

Lemma quiet_call_callee callee args : quiet (call_callee callee args).
Proof.
  destruct callee as [callback|name member]; cbn [call_callee]; [apply quiet_call|].
  destruct (callable member); [|apply quiet_throw].
  apply quiet_bind.
  - intros st. split; [apply frame_refl|reflexivity].
  - intros _. destruct (returns member args); [apply quiet_ret|apply quiet_throw].
Qed.

Lemma quiet_handleMessage m : quiet (_handleMessage m).
Proof.
  unfold _handleMessage. apply quiet_bind; [apply quiet_get|intros id].
  destruct (truthy id).
  - apply quiet_bind; [apply quiet_read|intros cbs].
    destruct (negb _); [apply quiet_ret|].
    apply quiet_bind; [apply quiet_get|intros error].
    apply quiet_bind.
    { destruct (truthy error); [apply quiet_call_callee|].
      apply quiet_bind; [apply quiet_get|intros result; apply quiet_call_callee]. }
    intros _. apply quiet_bind; [apply quiet_delete|intros _].
    apply quiet_bind; [apply quiet_read|intros cbs'].
    destruct (_ =? _)%nat; [apply quiet_emit|apply quiet_ret].
  - apply quiet_bind; [apply quiet_get|intros method].
    destruct (truthy method); [|apply quiet_ret].
    apply quiet_bind; [apply quiet_emit|intros _].
    apply quiet_bind; [apply quiet_get|intros params; apply quiet_emit].
Qed.

Lemma quiet_socket_message data : quiet (socket_message data).
Proof.
  unfold socket_message. apply quiet_bind; [apply quiet_read|intros [w|]];
    [|apply quiet_ret].
  destruct (message_listener w); [|apply quiet_ret].
  unfold on_message. apply quiet_bind; [apply quiet_lift|intros m].
  apply quiet_handleMessage.
Qed.

Lemma quiet__close callback : quiet (_close callback).
Proof.
  intros st. unfold _close. rewrite bind_read.
  destruct (ws st) as [w|] eqn:Hw; [|split; [apply frame_refl|reflexivity]].
  destruct (readyState w =? 3); [apply quiet_call|].
  split; [|reflexivity]. now apply (frame_same_unacked w).
Qed.

Lemma quiet_close callback : quiet (close callback).
Proof.
  unfold close. destruct (is_function callback).
  - apply quiet_bind; [apply quiet__close|intros _; apply quiet_ret].
  - apply quiet_bind; [apply quiet_new_promise|intros p].
    apply quiet_bind; [|intros _; apply quiet_ret].
    apply quiet_catch; [apply quiet__close|intros e; apply quiet_settle].
Qed.

Lemma quiet_run_close_listener l : quiet (run_close_listener l).
Proof.
  destruct l as [|callback]; cbn [run_close_listener]; [apply quiet_emit|].
  intros st. rewrite bind_read.
  destruct (ws st) as [w|] eqn:Hw.
  - rewrite bind_modify.
    destruct (quiet_call callback [] (set_ws (ws_removeAllListeners w) st)) as [Hf Ht].
    split; [|exact Ht]. eapply frame_trans; [|exact Hf].
    now apply (frame_same_unacked w).
  - rewrite bind_ret. apply quiet_call.
Qed.

Lemma quiet_run_close_listeners ls : quiet (run_close_listeners ls).
Proof.
  induction ls as [|l ls IH]; cbn [run_close_listeners]; [apply quiet_ret|].
  apply quiet_bind; [apply quiet_run_close_listener|intros _; exact IH].
Qed.

Lemma quiet_socket_closed : quiet socket_closed.
Proof.
  intros st. unfold socket_closed. rewrite bind_read.
  destruct (ws st) as [w|] eqn:Hw; [|split; [apply frame_refl|reflexivity]].
  destruct (readyState w =? 3); [split; [apply frame_refl|reflexivity]|].
  rewrite bind_modify.
  destruct (quiet_run_close_listeners (close_listeners w) (set_ws (ws_closed w) st))
    as [Hf Ht].
  split; [|exact Ht]. eapply frame_trans; [|exact Hf].
  now apply (frame_same_unacked w).
Qed.

Lemma uncaught_run m st :
  final (uncaught m st) = final (m st) /\
  transmitted (effects (uncaught m st)) = transmitted (effects (m st)).
Proof.
  unfold uncaught, catch, tell. destruct (completion (m st)); [auto|].
  cbn [final effects]. rewrite transmitted_app. cbn. now rewrite app_nil_r.
Qed.

Lemma tracked_more sent more key callback :
  tracked sent key callback -> tracked (sent ++ more) key callback.
Proof.
  intros (i & a & Hi & Hk & Hc). exists i, a. split; [|auto].
  now apply lookup_app_l_Some.
Qed.

Lemma consistent_frame sent st st' :
  consistent sent st -> frame st st' -> consistent sent st'.
Proof.
  intros (Hws & Hnext & Hids & Hwait & Hpend) (F1 & F2 & F3 & F4).
  repeat split; auto.
  - congruence.
  - intros n data a Hn. apply F2 in Hn as [n' Hn]. eauto.
Qed.

Lemma consistent_insert sent st key callback :
  consistent sent st -> tracked sent key callback ->
  consistent sent (set_callbacks (insert key callback) st).
Proof.
  intros (Hws & Hnext & Hids & Hwait & Hpend) Ht. repeat split; auto.
  intros k v. cbn [_callbacks set_callbacks]. rewrite lookup_insert.
  case_decide; [intros [= <-]; now subst|auto].
Qed.

(** [send] on a connected session: one envelope, with the next id. *)
Lemma send_run method params callback st w :
  ws st = Some w ->
  exists data a result st0,
    send method params callback st =
      Out (Normal result)
          (set_ws (ws_send data a w) (set_nextCommandId (_nextCommandId st + 1) st0))
          [Transmit data a] /\
    field (ack_message a) "id" = VJson (JNum (_nextCommandId st)) /\
    (st0 = st \/ st0 = set_promises (promises st ++ [Pending]) st).
Proof.
  intros Hw. unfold send.
  set (cb := if is_function params then params else callback).
  set (message := JObj _).
  destruct (is_function cb) eqn:Hcb.
  - unfold sendRaw. rewrite Hcb. unfold bind.
    rewrite (_enqueueCommand_run _ _ _ _ Hw). cbn [completion final effects ret app].
    eexists _, _, _, st. split; [reflexivity|]. split; [apply send_envelope_id|auto].
  - rewrite (sendRaw_promise _ _ _ _ Hw Hcb).
    eexists _, _, _, _. split; [reflexivity|]. split; [apply send_envelope_id|auto].
Qed.

Lemma consistent_send sent method params callback st :
  consistent sent st ->
  exists a,
    transmitted (effects (send method params callback st)) = [a] /\
    consistent (sent ++ [a]) (final (send method params callback st)).
Proof.
  intros (Hws & Hnext & Hids & Hwait & Hpend). destruct Hws as [w Hw].
  destruct (send_run method params callback st w Hw)
    as (data & a & result & st0 & -> & Hid & Hst0).
  exists a. split; [reflexivity|]. cbn [final].
  assert (Hsame : _callbacks st0 = _callbacks st /\ waiting st0 = waiting st /\
                  ws st0 = ws st).
  { destruct Hst0 as [->| ->]; auto. }
  destruct Hsame as (Hc & Hwt & Hws0).
  repeat split.
  - now eexists.
  - cbn. rewrite length_app, Nat2Z.inj_add. cbn. lia.
  - intros i a' Hi. apply lookup_app_Some in Hi as [Hi|[Hlen Hi]]; [auto|].
    apply list_lookup_singleton_Some in Hi as [Hz <-].
    rewrite Hid, Hnext. do 2 f_equal. lia.
  - intros n d a'. unfold waiting. cbn [ws set_ws ws_send unacked].
    intros Hn. apply lookup_app_Some in Hn as [Hn|[_ Hn]].
    + assert (Hn' : waiting st !! n = Some (d, a')) by (unfold waiting; now rewrite Hw).
      apply Hwait in Hn' as [i Hi]. exists i. now apply lookup_app_l_Some.
    + apply list_lookup_singleton_Some in Hn as [_ [= _ <-]].
      exists (length sent). now rewrite lookup_app_r, Nat.sub_diag.
  - intros key v. cbn [_callbacks set_ws set_nextCommandId]. rewrite Hc.
    intros Hk. apply tracked_more. auto.
Qed.

Lemma consistent_ack sent n err st :
  consistent sent st ->
  transmitted (effects (socket_ack n err st)) = [] /\
  consistent sent (final (socket_ack n err st)).
Proof.
  intros Hc. pose proof Hc as (Hws & Hnext & Hids & Hwait & Hpend).
  unfold socket_ack. rewrite bind_read.
  destruct (ws st) as [w|] eqn:Hw; [|split; [reflexivity|exact Hc]].
  destruct (unacked w !! n) as [[data a]|] eqn:Hn; [|split; [reflexivity|exact Hc]].
  rewrite bind_modify.
  assert (Hsent : exists i, sent !! i = Some a).
  { apply (Hwait n data). unfold waiting. now rewrite Hw. }
  assert (Hc1 : consistent sent (set_ws (ws_acked n w) st)).
  { apply (consistent_frame _ st); [exact Hc|]. apply frame_set_ws.
    intros k x. unfold waiting. rewrite Hw. cbn [unacked ws_acked].
    intros Hk. apply lookup_app_Some in Hk as [Hk|[_ Hk]].
    - apply lookup_take_Some in Hk as [Hk _]. eauto.
    - rewrite lookup_drop in Hk. eauto. }
  destruct (truthy err) eqn:He.
  - rewrite acknowledge_failure by assumption.
    destruct (is_function (ack_callback a)).
    + destruct (quiet_call (ack_callback a) [err] (set_ws (ws_acked n w) st)) as [Hf Ht].
      split; [exact Ht|]. eapply consistent_frame; eassumption.
    + split; [reflexivity|exact Hc1].
  - destruct Hsent as [i Hi]. pose proof (Hids i a Hi) as Hid.
    rewrite acknowledge_success; [|assumption|].
    2:{ intros Hnull. rewrite Hnull in Hid. discriminate. }
    split; [reflexivity|]. cbn [final]. apply consistent_insert; [exact Hc1|].
    exists i, a. rewrite Hid. auto.
Qed.

Lemma consistent_turn sent i st :
  consistent sent st ->
  exists more,
    transmitted (effects (uncaught (turn i) st)) = more /\
    length more = sends [i] /\
    consistent (sent ++ more) (final (uncaught (turn i) st)).
Proof.
  intros Hc. destruct (uncaught_run (turn i) st) as [-> ->].
  assert (Hquiet : quiet (turn i) ->
    exists more, transmitted (effects (turn i st)) = more /\ length more = 0%nat /\
                 consistent (sent ++ more) (final (turn i st))).
  { intros Hq. destruct (Hq st) as [Hf Ht]. exists []. rewrite Ht, app_nil_r.
    split; [reflexivity|]. split; [reflexivity|].
    eapply consistent_frame; eassumption. }
  destruct i as [method params callback|callback|n err|data|]; cbn [turn sends].
  - destruct (consistent_send sent method params callback st Hc) as (a & Ht & Hc').
    exists [a]. rewrite effects_bind, final_bind, transmitted_app, Ht.
    destruct (completion _); cbn; rewrite ?app_nil_r; auto.
  - apply Hquiet. cbn [turn].
    apply quiet_bind; [apply quiet_close|intros ?; apply quiet_ret].
  - destruct (consistent_ack sent n err st Hc) as [Ht Hc'].
    exists []. rewrite Ht, app_nil_r. auto.
  - apply Hquiet. apply quiet_socket_message.
  - apply Hquiet. apply quiet_socket_closed.
Qed.

Lemma consistent_run inputs : forall sent st,
  consistent sent st ->
  length (transmitted (effects (run inputs st))) = sends inputs /\
  consistent (sent ++ transmitted (effects (run inputs st))) (final (run inputs st)).
Proof.
  induction inputs as [|i inputs IH]; intros sent st Hc.
  - cbn. now rewrite app_nil_r.
  - cbn [run]. destruct (consistent_turn sent i st Hc) as (more & Hmore & Hlen & Hc').
    assert (Hnormal : completion (uncaught (turn i) st) = Normal tt).
    { unfold uncaught, catch, tell.
      destruct (completion (turn i st)) as [[]|] eqn:Hcomp; [exact Hcomp|reflexivity]. }
    rewrite effects_bind, final_bind, Hnormal, transmitted_app, Hmore.
    destruct (IH _ _ Hc') as [Hlen' Hc''].
    rewrite length_app, Hlen, Hlen', app_assoc. split; [|exact Hc''].
    cbn [sends]. destruct i; cbn; lia.
Qed.

Lemma consistent_connected : consistent [] connected.
Proof.
  repeat split.
  - now eexists.
  - intros i a Hi. discriminate.
  - intros n data a Hn. discriminate.
  - intros key v Hk. cbn in Hk. now rewrite lookup_empty in Hk.
Qed.

(** The router calls nothing but the callback pending under the id of the
    message. *)
Lemma handle_invokes m st g args seen :
  In (Invoke g args seen) (effects (_handleMessage m st)) ->
  _callbacks st !! ToString (field m "id") = Some (VFn g).
Proof.
  intros Hin.
  assert (Hnull : m = JNull \/ m <> JNull) by (destruct m; auto; right; discriminate).
  destruct Hnull as [->|Hm]; [destruct Hin|].
  destruct (truthy (field m "id")) eqn:Hid.
  - destruct (_callbacks st !! ToString (field m "id")) as [callback|] eqn:Hcb.
    + destruct (truthy callback) eqn:Htr.
      * rewrite handle_reply_outcome in Hin by (rewrite ?Hcb; auto).
        rewrite Hcb in Hin. cbn [default from_option id] in Hin.
        set (a := if truthy (field m "error") then _ else _) in Hin.
        destruct (call_frame callback a st) as (_ & _ & _ & Heff).
        assert (Hcall : In (Invoke g args seen) (effects (call callback a st))).
        { destruct (completion (call callback a st));
            [destruct (bool_decide _)|]; cbn [effects] in Hin; auto.
          apply in_app_or in Hin as [?|[?|[]]]; [assumption|discriminate]. }
        rewrite Heff in Hcall. destruct callback; cbn in Hcall; try tauto.
        destruct Hcall as [[= -> _ _]|[]]. reflexivity.
      * rewrite handle_unknown in Hin by (rewrite ?(lookup_held _ _ _ Hcb); auto).
        destruct Hin.
    + destruct (Object_prototype (ToString (field m "id"))) as [member|] eqn:Hmember.
      * rewrite (handle_inherited m st member Hid Hcb Hmember) in Hin.
        destruct (callable member); [|destruct Hin].
        destruct (returns member (reply_arguments m)); [destruct (bool_decide _)|];
          cbn [effects In] in Hin; intuition discriminate.
      * rewrite handle_unknown in Hin
          by (rewrite ?(lookup_missing _ _ Hcb Hmember); auto).
        destruct Hin.
  - destruct (truthy (field m "method")) eqn:Hmethod.
    + rewrite handle_event in Hin by assumption.
      rewrite effects_bind, !emit_run in Hin. cbn [completion final effects] in Hin.
      destruct (listeners_throw "event" [VJson m] st); cbn in Hin;
        intuition discriminate.
    + rewrite handle_ignored in Hin by assumption. destruct Hin.
Qed.

(** C2. In every run of a connected session, the ids of the commands
    [send] hands to the transport are 1, 2, 3, ... in the order of the
    calls: strictly increasing integers from 1, none of them used twice,
    and no two of them give the same key of the pending map.  Every entry
    of the pending map belongs to the one command sent with that id and
    holds its callback, and a reply is delivered only to the
    callback of the command whose id is the reply's own id, whatever
    events, acknowledgements and closes were interleaved. *)
Theorem correlation_ids (inputs : list Input) :
  let r := run inputs connected in
  let sent := transmitted (effects r) in
  let id_of (a : Ack) := field (ack_message a) "id" in
  map id_of sent
    = map (fun i => VJson (JNum i)) (seqZ 1 (Z.of_nat (sends inputs))) /\
  NoDup (map id_of sent) /\
  (forall i j a b,
     sent !! i = Some a -> sent !! j = Some b ->
     ToString (id_of a) = ToString (id_of b) -> i = j) /\
  (forall key callback,
     _callbacks (final r) !! key = Some callback ->
     exists i a, sent !! i = Some a /\ ack_callback a = callback /\
                 key = ToString (id_of a)) /\
  (forall m g args seen,
     In (Invoke g args seen) (effects (_handleMessage m (final r))) ->
     exists i a, sent !! i = Some a /\ ack_callback a = VFn g /\
                 ToString (field m "id") = ToString (id_of a)).
Proof.
  intros r sent id_of.
  destruct (consistent_run inputs [] connected consistent_connected)
    as [Hlen Hc].
  cbn [app] in Hc. fold r in Hc, Hlen. fold sent in Hc, Hlen.
  destruct Hc as (_ & _ & Hids & _ & Hpend).
  assert (Hmap : map id_of sent
                 = map (fun i => VJson (JNum i)) (seqZ 1 (Z.of_nat (sends inputs)))).
  { apply list_eq. intros i. change map with (@fmap list _) . rewrite !list_lookup_fmap.
    destruct (sent !! i) as [a|] eqn:Hi; cbn [fmap option_fmap option_map].
    - rewrite lookup_seqZ_lt by (apply lookup_lt_Some in Hi; lia).
      cbn [fmap option_fmap option_map].
      unfold id_of. rewrite (Hids i a Hi). do 3 f_equal.
    - rewrite lookup_seqZ_ge; [reflexivity|]. apply lookup_ge_None in Hi. lia. }
  assert (Hkey : forall i a, sent !! i = Some a ->
                             pretty (1 + Z.of_nat i) = ToString (id_of a)).
  { intros i a Hi. unfold id_of. now rewrite (Hids i a Hi). }
  split; [exact Hmap|]. split.
  - rewrite Hmap. change map with (@fmap list _).
    assert (Hinj : Inj (=) (=) (fun i : Z => VJson (JNum i)))
      by (intros x y [= ->]; reflexivity).
    apply (NoDup_fmap_2 _). apply NoDup_seqZ.
  - split.
    { intros i j a b Hi Hj Heq. rewrite <- (Hkey i a Hi), <- (Hkey j b Hj) in Heq.
      apply pretty_Z_inj in Heq. lia. }
    split.
    + intros key callback Hk. apply Hpend in Hk as (i & a & Hi & -> & Hcb).
      exists i, a. auto.
    + intros m g args seen Hin. apply handle_invokes in Hin.
      apply Hpend in Hin as (i & a & Hi & Hk & Hcb).
      exists i, a. rewrite Hk. auto.
Qed.

(** X4. An inbound message without a truthy id and with a truthy method
    is an event: the session emits 'event' with the whole message and then
    the signal named by the method with the message's [params], once each,
    and invokes no callback; the session itself is unchanged. *)
Theorem event_dispatch (m : Json) (st : Chrome) :
  truthy (field m "id") = false -> truthy (field m "method") = true ->
  listeners_throw "event" [VJson m] st = None ->
  effects (_handleMessage m st)
  = [Emit "event" [VJson m] st;
     Emit (ToString (field m "method")) [field m "params"] st] /\
  final (_handleMessage m st) = st.
Proof.
  intros Hid Hmethod Hquiet.
  rewrite handle_event by (auto; now apply truthy_field_not_null in Hmethod).
  unfold bind. rewrite !emit_run. cbn [completion final effects]. rewrite Hquiet.
  cbn. auto.
Qed.

(** ** The close contract of the socket transport *)

(** X1. When the socket is already closed, [close] completes at once: the
    completion callback is invoked during the call, and no listener of the
    socket is touched. *)
Theorem close_on_closed_socket (f : Fn) (st : Chrome) (w : WebSocket) :
  ws st = Some w -> readyState w = 3 ->
  effects (close (VFn f) st) = [Invoke f [] st] /\
  ws (final (close (VFn f) st)) = Some w.
Proof.
  intros Hw Hclosed. unfold close, _close. cbn [is_function].
  rewrite bind_assoc, bind_read, Hw, Hclosed. cbn [Z.eqb Pos.eqb].
  rewrite effects_bind, final_bind.
  destruct (call_frame (VFn f) [] st) as (_ & _ & Hws & ->).
  destruct (completion (call (VFn f) [] st)); cbn [ret effects final app];
    rewrite Hws; auto.
Qed.

(** X2. A caller-initiated close of a socket that is not closed yet emits
    nothing and invokes nothing during the call; when the socket then
    closes, the completion callback is invoked and no 'disconnect' signal
    is emitted. *)
Theorem caller_close_suppresses_disconnect (f : Fn) (st : Chrome) (w : WebSocket) :
  ws st = Some w -> readyState w <> 3 ->
  effects (close (VFn f) st) = [] /\
  exists seen,
    effects (socket_closed (final (close (VFn f) st))) = [Invoke f [] seen] /\
    emitted "disconnect" (effects (socket_closed (final (close (VFn f) st)))) = 0%nat.
Proof.
  intros Hw Hopen. apply Z.eqb_neq in Hopen.
  assert (Hrun : close (VFn f) st
                 = Out (Normal VUndefined)
                       (set_ws (ws_close (ws_once_close (CloseCompletion (VFn f))
                                            (ws_removeAllListeners_close w))) st) []).
  { unfold close, _close. cbn [is_function].
    rewrite bind_assoc, bind_read, Hw, Hopen, bind_modify. reflexivity. }
  rewrite Hrun. cbn [effects final]. split; [reflexivity|].
  unfold socket_closed. rewrite bind_read. cbn [ws set_ws ws_close readyState
    ws_once_close ws_removeAllListeners_close close_listeners app].
  rewrite Hopen. change (2 =? 3) with false. cbv iota. rewrite bind_modify.
  cbn [run_close_listeners run_close_listener].
  rewrite !bind_assoc, bind_read. cbn [ws set_ws]. rewrite !bind_assoc, bind_modify.
  set (seen := set_ws _ (set_ws _ _)).
  rewrite effects_bind, call_run. cbn [prepend completion final effects].
  destruct (body_frame f [] seen) as (_ & _ & _ & ->).
  exists seen. destruct (completion (body f [] seen)); cbn; auto.
Qed.

Lemma budget_same_ws st st' : ws st' = ws st -> disconnect_budget st' = disconnect_budget st.
Proof. unfold disconnect_budget. now intros ->. Qed.

Lemma budget_closing w callback st :
  readyState w = 2 -> close_listeners w = [CloseCompletion callback] ->
  disconnect_budget (set_ws w st) = 0%nat.
Proof.
  intros Hrs Hls. unfold disconnect_budget. cbn [ws set_ws]. now rewrite Hrs, Hls.
Qed.

Lemma close_budget callback st :
  emitted "disconnect" (effects (close callback st)) = 0%nat /\
  (disconnect_budget (final (close callback st)) <= disconnect_budget st)%nat.
Proof.
  assert (Hclose : forall cb st0,
    emitted "disconnect" (effects (_close cb st0)) = 0%nat /\
    (disconnect_budget (final (_close cb st0)) <= disconnect_budget st0)%nat).
  { intros cb st0. unfold _close. rewrite bind_read.
    destruct (ws st0) as [w|] eqn:Hw; [|split; [reflexivity|apply Nat.le_refl]].
    destruct (readyState w =? 3) eqn:Hrs.
    - destruct (call_frame cb [] st0) as (_ & _ & Hws & _).
      rewrite call_emits_nothing, (budget_same_ws _ _ Hws). auto.
    - split; [reflexivity|]. cbn [final modify].
      rewrite (budget_closing _ cb); [lia| |reflexivity].
      cbn [readyState ws_close ws_once_close ws_removeAllListeners_close].
      now rewrite Hrs. }
  unfold close. destruct (is_function callback).
  - rewrite effects_bind, final_bind, emitted_app.
    destruct (Hclose callback st) as [-> Hb].
    destruct (completion (_close callback st)); cbn; auto.
  - rewrite new_promise_run. set (st0 := set_promises _ st).
    assert (Hb0 : disconnect_budget st0 = disconnect_budget st) by reflexivity.
    rewrite <- Hb0. rewrite effects_bind, final_bind, emitted_app.
    unfold catch. destruct (Hclose (VFn (Fulfill (length (promises st)))) st0)
      as [He Hb].
    destruct (completion (_close _ st0)) eqn:Hcomp.
    + rewrite Hcomp, He. cbn. auto.
    + cbn [completion final effects]. rewrite settle_run.
      cbn [completion final effects ret]. rewrite app_nil_r, He. split; [reflexivity|].
      etransitivity; [|exact Hb].
      destruct (promises _ !! _) as [[]|]; cbn [final]; reflexivity.
Qed.

Lemma run_close_listeners_budget ls : forall st w,
  ws st = Some w -> readyState w = 3 ->
  (emitted "disconnect" (effects (run_close_listeners ls st))
   <= length (filter (fun l => is_once l = false) ls))%nat /\
  disconnect_budget (final (run_close_listeners ls st)) = 0%nat.
Proof.
  assert (Hzero : forall st w, ws st = Some w -> readyState w = 3 ->
                               disconnect_budget st = 0%nat).
  { intros st w Hw Hrs. unfold disconnect_budget. now rewrite Hw, Hrs. }
  induction ls as [|l ls IH]; intros st w Hw Hrs.
  - cbn. split; [lia|]. eapply Hzero; eassumption.
  - cbn [run_close_listeners]. rewrite effects_bind, final_bind, emitted_app.
    destruct l as [|callback]; cbn [run_close_listener].
    + rewrite emit_run. cbn [completion final effects emitted].
      change (String_eqb "disconnect" "disconnect") with true.
      rewrite filter_cons_True by reflexivity. cbn [length].
      destruct (listeners_throw "disconnect" [] st).
      * split; [cbn; lia|]. eapply Hzero; eassumption.
      * destruct (IH st w Hw Hrs) as [He Hb]. split; [cbn in *; lia|exact Hb].
    + rewrite filter_cons_False by (cbn; discriminate).
      rewrite !bind_read, Hw, !bind_modify.
      set (st1 := set_ws (ws_removeAllListeners w) st).
      destruct (call_frame callback [] st1) as (_ & _ & Hws & _).
      rewrite call_emits_nothing.
      assert (Hw1 : ws (final (call callback [] st1)) = Some (ws_removeAllListeners w))
        by (rewrite Hws; reflexivity).
      destruct (completion (call callback [] st1)).
      * destruct (IH _ _ Hw1 Hrs) as [He Hb]. split; [cbn in *; lia|exact Hb].
      * split; [cbn; lia|]. eapply Hzero; [exact Hw1|exact Hrs].
Qed.

Lemma socket_closed_budget st :
  (emitted "disconnect" (effects (socket_closed st)) <= disconnect_budget st)%nat /\
  disconnect_budget (final (socket_closed st)) = 0%nat.
Proof.
  unfold socket_closed. rewrite bind_read. unfold disconnect_budget at 1.
  destruct (ws st) as [w|] eqn:Hw.
  - destruct (readyState w =? 3) eqn:Hrs.
    + cbn. unfold disconnect_budget. rewrite Hw, Hrs. auto.
    + rewrite bind_modify.
      apply (run_close_listeners_budget (close_listeners w)
               (set_ws (ws_closed w) st) (ws_closed w)); reflexivity.
  - cbn. unfold disconnect_budget. rewrite Hw. auto.
Qed.

Lemma closing_run_budget inputs : forall st,
  Forall is_closing inputs ->
  (emitted "disconnect" (effects (run inputs st)) <= disconnect_budget st)%nat.
Proof.
  induction inputs as [|i inputs IH]; intros st Hall; [cbn; lia|].
  apply Forall_cons in Hall as [Hi Hall].
  cbn [run]. rewrite effects_bind, emitted_app.
  assert (Hturn :
    (emitted "disconnect" (effects (uncaught (turn i) st))
     + disconnect_budget (final (uncaught (turn i) st)) <= disconnect_budget st)%nat /\
    completion (uncaught (turn i) st) = Normal tt).
  { unfold uncaught, catch, tell.
    assert (Hcore : (emitted "disconnect" (effects (turn i st))
                     + disconnect_budget (final (turn i st)) <= disconnect_budget st)%nat).
    { destruct i; try contradiction; cbn [turn].
      - rewrite effects_bind, final_bind, emitted_app.
        destruct (close_budget callback st) as [-> Hb].
        destruct (completion (close callback st)); cbn; lia.
      - destruct (socket_closed_budget st) as [He ->]. lia. }
    destruct (completion (turn i st)) as [[]|] eqn:Hcomp.
    - split; [exact Hcore|exact Hcomp].
    - cbn [completion final effects]. rewrite emitted_app. cbn.
      split; [lia|reflexivity]. }
  destruct Hturn as [Hb ->].
  specialize (IH (final (uncaught (turn i) st)) Hall). lia.
Qed.

(** X3. In every sequence of close calls and socket closures on a
    connected session, listeners observe at most one 'disconnect'
    signal. *)
Theorem at_most_one_disconnect (inputs : list Input) :
  Forall is_closing inputs ->
  (emitted "disconnect" (effects (run inputs connected)) <= 1)%nat.
Proof. intros Hall. apply (closing_run_budget inputs connected Hall). Qed.

(** ** Replies that come twice, and callbacks that throw *)



(** X6. When the callback of a reply throws, the exception leaves
    [_handleMessage], the command stays in the pending map (the session is
    left exactly as it was) and no 'ready' is emitted, so the same reply
    delivered again invokes the callback again. *)
Theorem throwing_callback_stays_pending (m : Json) (st : Chrome) (n : nat)
    (e : Value) :
  truthy (field m "id") = true ->
  _callbacks st !! ToString (field m "id") = Some (VFn (UserFn n)) ->
  (forall args, user_throws n args st = Some e) ->
  exists args,
    _handleMessage m st = Out (Abrupt e) st [Invoke (UserFn n) args st] /\
    _handleMessage m (final (_handleMessage m st))
    = Out (Abrupt e) st [Invoke (UserFn n) args st].
Proof.
  intros Hid Hcb Hthrows. pose proof (truthy_field_not_null _ _ Hid) as Hm.
  assert (Hrun : exists args,
            _handleMessage m st = Out (Abrupt e) st [Invoke (UserFn n) args st]).
  { rewrite handle_reply_outcome by (rewrite ?(lookup_callback _ _ _ Hcb); auto).
    rewrite (lookup_callback _ _ _ Hcb), call_run. cbn [body].
    rewrite bind_read, Hthrows. cbn [prepend completion final effects throw].
    eexists. reflexivity. }
  destruct Hrun as [args Hrun]. exists args. rewrite Hrun. cbn [final].
  split; [reflexivity|exact Hrun].
Qed.

(** ** Sends: the race with the reply, own ids, and no transport *)

(** [send] with a callback on a connected session. *)
Lemma send_callback_run method params callback f st w :
  ws st = Some w ->
  (if is_function params then params else callback) = VFn f ->
  exists data a,
    send method params callback st =
      Out (Normal VUndefined)
          (set_ws (ws_send data a w) (set_nextCommandId (_nextCommandId st + 1) st))
          [Transmit data a] /\
    ack_callback a = VFn f /\
    field (ack_message a) "id" = VJson (JNum (_nextCommandId st)).
Proof.
  intros Hw Hcb. unfold send, sendRaw. rewrite Hcb. cbn [is_function].
  unfold bind. rewrite (_enqueueCommand_run _ _ _ _ Hw).
  cbn [completion final effects ret app].
  eexists _, _. split; [reflexivity|]. split; [reflexivity|apply send_envelope_id].
Qed.

(** X7. The callback of a command is registered only when the transport
    acknowledges the send.  A reply that arrives before the
    acknowledgement finds no callback and is dropped; the acknowledgement
    then registers the callback all the same, for a reply that has already
    come. *)
Theorem reply_before_acknowledgement_is_lost (method : Json)
    (params callback : Value) (f : Fn) (st : Chrome) (w : WebSocket) (m : Json) :
  ws st = Some w ->
  (if is_function params then params else callback) = VFn f ->
  _callbacks st !! pretty (_nextCommandId st) = None ->
  field m "id" = VJson (JNum (_nextCommandId st)) ->
  _nextCommandId st <> 0 ->
  exists data a,
    effects (send method params callback st) = [Transmit data a] /\
    _handleMessage m (final (send method params callback st))
    = Out (Normal tt) (final (send method params callback st)) [] /\
    forall err, truthy err = false ->
      _callbacks (final (acknowledge a err (final (send method params callback st))))
        !! pretty (_nextCommandId st)
      = Some (VFn f).
Proof.
  intros Hw Hcb Hfree Hid Hnz.
  destruct (send_callback_run method params callback f st w Hw Hcb)
    as (data & a & Hsend & Ha & Haid).
  exists data, a. rewrite Hsend. cbn [effects final]. split; [reflexivity|].
  assert (Htruthy : truthy (field m "id") = true).
  { rewrite Hid. cbn. now apply negb_true_iff, Z.eqb_neq. }
  split.
  - apply handle_unknown; [now apply truthy_field_not_null in Htruthy|exact Htruthy|].
    rewrite Hid. cbn [ToString String_of].
    rewrite lookup_missing; [reflexivity|exact Hfree|apply number_names_no_member].
  - intros err He. rewrite acknowledge_success; [|exact He|].
    + cbn [final _callbacks set_callbacks]. rewrite Haid, Ha.
      cbn [ToString String_of]. apply lookup_insert_eq.
    + intros Hnull. rewrite Hnull in Haid. discriminate.
Qed.

Lemma assoc_set_field k k' v fields :
  assoc k (set_field k' v fields)
  = if String_eqb k k' then Some v else assoc k fields.
Proof.
  unfold String_eqb. induction fields as [|[k0 v0] fields IH]; cbn [set_field assoc].
  - unfold String_eqb. now destruct (bool_decide (k = k')).
  - unfold String_eqb in *.
    destruct (bool_decide (k' = k0)) eqn:Hk0; cbn [assoc]; unfold String_eqb.
    + apply bool_decide_eq_true_1 in Hk0. subst k0.
      now destruct (bool_decide (k = k')).
    + rewrite IH. destruct (bool_decide (k = k0)) eqn:Hk; [|reflexivity].
      apply bool_decide_eq_true_1 in Hk. subst k0.
      apply bool_decide_eq_false_1 in Hk0.
      rewrite bool_decide_eq_false_2 by congruence. reflexivity.
Qed.

Lemma assoc_spread k props : forall base,
  assoc k (fold_left (fun acc kv => set_field kv.1 kv.2 acc) props base)
  = match assoc k (rev props) with
    | Some v => Some v
    | None => assoc k base
    end.
Proof.
  induction props as [|[k0 v0] props IH] using rev_ind; intros base; [reflexivity|].
  rewrite fold_left_app, rev_app_distr. cbn [fold_left rev app assoc fst snd].
  rewrite assoc_set_field. destruct (String_eqb k k0); [reflexivity|apply IH].
Qed.

Lemma assoc_Some_In k v fields : assoc k fields = Some v -> In (k, v) fields.
Proof.
  induction fields as [|[k0 v0] fields IH]; cbn [assoc]; [discriminate|].
  unfold String_eqb. destruct (bool_decide (k = k0)) eqn:Hk.
  - apply bool_decide_eq_true_1 in Hk. intros [= <-]. subst. now left.
  - intros H. right. auto.
Qed.

Lemma In_assoc_Some k v fields :
  NoDup (map fst fields) -> In (k, v) fields -> assoc k fields = Some v.
Proof.
  induction fields as [|[k0 v0] fields IH]; cbn [assoc map fst]; [intros _ []|].
  intros Hnd Hin. apply NoDup_cons in Hnd as [Hnot Hnd]. unfold String_eqb.
  destruct Hin as [[= -> ->]|Hin].
  - now rewrite bool_decide_eq_true_2.
  - rewrite bool_decide_eq_false_2; [auto|].
    intros ->. apply Hnot. apply list_elem_of_In.
    apply (in_map fst) in Hin. exact Hin.
Qed.

Lemma assoc_rev k fields :
  NoDup (map fst fields) -> assoc k (rev fields) = assoc k fields.
Proof.
  intros Hnd.
  assert (Hnd' : NoDup (map fst (rev fields))).
  { rewrite map_rev. apply NoDup_ListNoDup, NoDup_rev, NoDup_ListNoDup, Hnd. }
  destruct (assoc k fields) as [v|] eqn:Hfields.
  - apply In_assoc_Some; [exact Hnd'|].
    apply -> in_rev. now apply assoc_Some_In.
  - destruct (assoc k (rev fields)) as [v|] eqn:Hrev; [|reflexivity].
    apply assoc_Some_In in Hrev. apply <- in_rev in Hrev.
    apply (In_assoc_Some _ _ _ Hnd) in Hrev. congruence.
Qed.

(** X8. The envelope [sendRaw] builds carries the allocated id only when
    the message has no [id] property of its own: an own [id] replaces it
    in the envelope, and the acknowledged send registers the callback under
    that id, while the counter advances all the same. *)
Theorem sendRaw_own_id_overrides (fields : list (string * Json)) (f : Fn)
    (st : Chrome) (w : WebSocket) :
  ws st = Some w -> NoDup (map fst fields) ->
  exists data a,
    sendRaw (JObj fields) (VFn f) st =
      Out (Normal VUndefined)
          (set_ws (ws_send data a w) (set_nextCommandId (_nextCommandId st + 1) st))
          [Transmit data a] /\
    field (ack_message a) "id"
    = VJson (default (JNum (_nextCommandId st)) (assoc "id" fields)) /\
    forall err st', truthy err = false ->
      acknowledge a err st' =
      Out (Normal tt)
          (set_callbacks
             (insert (String_of (default (JNum (_nextCommandId st))
                                   (assoc "id" fields))) (VFn f)) st') [].
Proof.
  intros Hw Hnd. unfold sendRaw. cbn [is_function]. unfold bind.
  rewrite (_enqueueCommand_run _ _ _ _ Hw). cbn [completion final effects ret app].
  eexists _, _. split; [reflexivity|]. cbn [ack_message ack_callback].
  assert (Hid : field (JObj (spread_over [("id", JNum (_nextCommandId st))]
                               (JObj fields))) "id"
                = VJson (default (JNum (_nextCommandId st)) (assoc "id" fields))).
  { unfold field. cbn [prop]. unfold spread_over. cbn [own_properties].
    rewrite assoc_spread, (assoc_rev _ _ Hnd).
    destruct (assoc "id" fields); reflexivity. }
  split; [exact Hid|].
  intros err st' He. rewrite acknowledge_success by (cbn; congruence).
  cbn [ack_message ack_callback]. now rewrite Hid.
Qed.

(** X9. Before the transport exists, [send] fails after it has taken an
    id: with a callback it throws a TypeError, without one it returns a
    promise rejected with the TypeError; in both cases the counter has
    advanced, nothing was handed to a transport and nothing is pending. *)
Theorem send_without_transport (method : Json) (params callback : Value)
    (st : Chrome) :
  ws st = None ->
  exists what,
    (is_function (if is_function params then params else callback) = true ->
     send method params callback st =
     Out (Abrupt (VError TypeError what None))
         (set_nextCommandId (_nextCommandId st + 1) st) []) /\
    (is_function (if is_function params then params else callback) = false ->
     send method params callback st =
     Out (Normal (VPromise (length (promises st))))
         (set_promises (promises st ++ [Rejected (VError TypeError what None)])
            (set_nextCommandId (_nextCommandId st + 1) st)) []).
Proof.
  intros Hw. exists "this._send is not a function".
  assert (Hrun : forall message cb st0, ws st0 = None ->
    _enqueueCommand message cb st0 =
    Out (Abrupt (VError TypeError "this._send is not a function" None))
        (set_nextCommandId (_nextCommandId st0 + 1) st0) []).
  { intros message cb st0 Hw0. unfold _enqueueCommand, _send.
    rewrite bind_read, bind_modify, bind_read. cbn [ws set_nextCommandId].
    rewrite Hw0. reflexivity. }
  unfold send, sendRaw. split; intros Hcb; rewrite Hcb.
  - unfold bind. rewrite Hrun by exact Hw. reflexivity.
  - rewrite new_promise_run. unfold bind, catch.
    rewrite Hrun by exact Hw. cbn [completion final effects].
    rewrite settle_run. cbn [completion final effects promises set_promises
      set_nextCommandId ret app].
    rewrite lookup_app_r, Nat.sub_diag by reflexivity. cbn [lookup list_lookup].
    rewrite insert_app_r_alt, Nat.sub_diag by reflexivity. reflexivity.
Qed.

(** X10. A send without a callback whose transmission fails with a value
    that is truthy but no Error: the promise callback builds a
    ProtocolError from a response it does not have, the TypeError of that
    leaves the acknowledgement, and the promise is left as it was, neither
    fulfilled nor rejected. *)
Theorem promise_unsettled_by_non_error_failure (method : Json)
    (params callback : Value) (st : Chrome) (w : WebSocket) (err : Value) :
  ws st = Some w ->
  is_function (if is_function params then params else callback) = false ->
  truthy err = true -> instanceof_Error err = false ->
  exists data a what,
    send method params callback st
    = Out (Normal (VPromise (length (promises st))))
          (set_ws (ws_send data a w)
             (set_nextCommandId (_nextCommandId st + 1)
                (set_promises (promises st ++ [Pending]) st)))
          [Transmit data a] /\
    forall st',
      completion (acknowledge a err st') = Abrupt (VError TypeError what None) /\
      final (acknowledge a err st') = st'.
Proof.
  intros Hw Hcb He Hne. unfold send.
  rewrite (sendRaw_promise _ _ _ _ Hw Hcb).
  eexists _, _, _. split; [reflexivity|]. intros st'.
  rewrite acknowledge_failure by exact He. cbn [ack_callback is_function].
  rewrite call_run. cbn [prepend completion final body arg lookup list_lookup
    default from_option id].
  unfold sendRaw_callback. rewrite He, Hne. cbn [ProtocolError prop].
  rewrite bind_lift_abrupt. split; reflexivity.
Qed.

(** ** Closing and the commands that are pending *)

(** X11. [close] without a callback returns a promise.  On a socket that
    is already closed the promise is fulfilled during the call; otherwise
    it is pending after the call, and fulfilled (with undefined) when the
    socket reports its closure, without a 'disconnect' signal. *)
Theorem close_promise (callback : Value) (st : Chrome) (w : WebSocket) :
  is_function callback = false -> ws st = Some w ->
  completion (close callback st) = Normal (VPromise (length (promises st))) /\
  (readyState w = 3 ->
   promises (final (close callback st)) !! length (promises st)
   = Some (Fulfilled VUndefined)) /\
  (readyState w <> 3 ->
   promises (final (close callback st)) !! length (promises st) = Some Pending /\
   promises (final (socket_closed (final (close callback st)))) !! length (promises st)
   = Some (Fulfilled VUndefined) /\
   emitted "disconnect" (effects (socket_closed (final (close callback st)))) = 0%nat).
Proof.
  intros Hcb Hw. unfold close. rewrite Hcb, new_promise_run.
  set (p := length (promises st)). set (st0 := set_promises _ st).
  assert (Hp : promises st0 !! p = Some Pending).
  { unfold st0, p. cbn [promises set_promises].
    rewrite lookup_app_r, Nat.sub_diag by reflexivity. reflexivity. }
  assert (Hlen : (p < length (promises st0))%nat) by now apply lookup_lt_Some in Hp.
  destruct (readyState w =? 3) eqn:Hrs.
  - assert (Hrun : _close (VFn (Fulfill p)) st0
      = Out (Normal tt) (set_promises (<[p := Fulfilled VUndefined]> (promises st0)) st0)
            [Invoke (Fulfill p) [] st0]).
    { unfold _close. rewrite bind_read. change (ws st0) with (ws st). rewrite Hw, Hrs.
      rewrite call_run. cbn [prepend completion final effects body arg lookup
        list_lookup default from_option id].
      rewrite settle_run, Hp. reflexivity. }
    unfold bind, catch. rewrite Hrun. cbn [completion final effects ret].
    split; [reflexivity|]. split.
    + intros _. cbn [promises set_promises]. now apply list_lookup_insert_eq.
    + intros Hopen. apply Z.eqb_eq in Hrs. contradiction.
  - assert (Hrun : _close (VFn (Fulfill p)) st0
      = Out (Normal tt)
            (set_ws (ws_close (ws_once_close (CloseCompletion (VFn (Fulfill p)))
                                 (ws_removeAllListeners_close w))) st0) []).
    { unfold _close. rewrite bind_read. change (ws st0) with (ws st). rewrite Hw, Hrs.
      reflexivity. }
    assert (Hfull : bind (catch (_close (VFn (Fulfill p)))
                            (fun e => settle p (Rejected e)))
                         (fun _ => ret (VPromise p)) st0
      = Out (Normal (VPromise p))
            (set_ws (ws_close (ws_once_close (CloseCompletion (VFn (Fulfill p)))
                                 (ws_removeAllListeners_close w))) st0) []).
    { unfold bind, catch. rewrite Hrun. reflexivity. }
    rewrite Hfull. cbn [completion final effects].
    split; [reflexivity|]. split.
    + intros Hclosed. apply Z.eqb_neq in Hrs. contradiction.
    + intros _. split; [exact Hp|].
      unfold socket_closed. rewrite bind_read. cbn [ws set_ws ws_close readyState
        ws_once_close ws_removeAllListeners_close close_listeners app].
      rewrite Hrs. change (2 =? 3) with false. cbv iota. rewrite bind_modify.
      cbn [run_close_listeners run_close_listener].
      rewrite !bind_assoc, bind_read. cbn [ws set_ws]. rewrite !bind_assoc, bind_modify.
      set (seen := set_ws _ (set_ws _ _)).
      assert (Hseen : promises seen !! p = Some Pending) by exact Hp.
      unfold bind. rewrite call_run. cbn [prepend completion final effects body arg
        lookup list_lookup default from_option id].
      rewrite settle_run, Hseen. cbn [completion final effects ret app promises
        set_promises emitted]. split; [|reflexivity].
      apply list_lookup_insert_eq. exact Hlen.
Qed.

Lemma invoked_app l1 l2 : invoked (l1 ++ l2) = invoked l1 ++ invoked l2.
Proof. induction l1 as [|[] l1 IH]; cbn; congruence. Qed.

(** A method that leaves the pending map alone and calls functions
    without arguments only. *)
Lemma completes_only_bind {A B} (m : M A) (k : A -> M B) st :
  (_callbacks (final (m st)) = _callbacks st /\
   Forall (fun c => c.2 = []) (invoked (effects (m st)))) ->
  (forall a st', _callbacks (final (k a st')) = _callbacks st' /\
                 Forall (fun c => c.2 = []) (invoked (effects (k a st')))) ->
  _callbacks (final (bind m k st)) = _callbacks st /\
  Forall (fun c => c.2 = []) (invoked (effects (bind m k st))).
Proof.
  intros [Hm1 Hm2] Hk. rewrite final_bind, effects_bind, invoked_app.
  destruct (completion (m st)) as [a|e].
  - destruct (Hk a (final (m st))) as [Hk1 Hk2]. split; [congruence|].
    apply Forall_app; auto.
  - split; [exact Hm1|]. apply Forall_app; auto.
Qed.

Lemma call_completes_only callback st :
  _callbacks (final (call callback [] st)) = _callbacks st /\
  Forall (fun c => c.2 = []) (invoked (effects (call callback [] st))).
Proof.
  destruct (call_frame callback [] st) as (H1 & _ & _ & H4). split; [exact H1|].
  rewrite H4. destruct callback; cbn; auto.
Qed.

Lemma _close_completes_only callback st :
  _callbacks (final (_close callback st)) = _callbacks st /\
  Forall (fun c => c.2 = []) (invoked (effects (_close callback st))).
Proof.
  unfold _close. rewrite bind_read. destruct (ws st) as [w|]; [|cbn; auto].
  destruct (readyState w =? 3); [apply call_completes_only|cbn; auto].
Qed.

Lemma close_completes_only callback st :
  _callbacks (final (close callback st)) = _callbacks st /\
  Forall (fun c => c.2 = []) (invoked (effects (close callback st))).
Proof.
  unfold close. destruct (is_function callback).
  - apply completes_only_bind; [apply _close_completes_only|cbn; auto].
  - rewrite new_promise_run. set (st0 := set_promises _ st).
    change (_callbacks st) with (_callbacks st0).
    apply completes_only_bind; [|cbn; auto].
    unfold catch. destruct (_close_completes_only (VFn (Fulfill (length (promises st)))) st0)
      as [H1 H2].
    destruct (completion (_close _ st0)); [auto|].
    cbn [final effects]. rewrite settle_run. cbn [final effects]. rewrite app_nil_r.
    split; [|exact H2]. rewrite <- H1.
    destruct (promises _ !! _) as [[]|]; reflexivity.
Qed.

Lemma run_close_listeners_completes_only ls : forall st,
  _callbacks (final (run_close_listeners ls st)) = _callbacks st /\
  Forall (fun c => c.2 = []) (invoked (effects (run_close_listeners ls st))).
Proof.
  induction ls as [|l ls IH]; intros st; [cbn; auto|].
  cbn [run_close_listeners]. apply completes_only_bind; [|intros _; apply IH].
  destruct l as [|callback]; cbn [run_close_listener].
  - rewrite emit_run. cbn. auto.
  - rewrite bind_read. destruct (ws st) as [w|].
    + rewrite bind_modify.
      change (_callbacks st) with (_callbacks (set_ws (ws_removeAllListeners w) st)).
      apply call_completes_only.
    + rewrite bind_ret. apply call_completes_only.
Qed.

Lemma socket_closed_completes_only st :
  _callbacks (final (socket_closed st)) = _callbacks st /\
  Forall (fun c => c.2 = []) (invoked (effects (socket_closed st))).
Proof.
  unfold socket_closed. rewrite bind_read. destruct (ws st) as [w|]; [|cbn; auto].
  destruct (readyState w =? 3); [cbn; auto|]. rewrite bind_modify.
  change (_callbacks st) with (_callbacks (set_ws (ws_closed w) st)).
  apply run_close_listeners_completes_only.
Qed.

(** X12. Closing completes no pending command.  In every sequence of close
    calls and socket closures, on any session, the pending map stays as it
    was, and the only functions invoked are invoked without arguments (the
    completion callbacks of close): no command callback is called, neither
    with an error nor with a result. *)
Theorem closing_keeps_pending_commands (inputs : list Input) (st : Chrome) :
  Forall is_closing inputs ->
  _callbacks (final (run inputs st)) = _callbacks st /\
  Forall (fun c => c.2 = []) (invoked (effects (run inputs st))).
Proof.
  revert st. induction inputs as [|i inputs IH]; intros st Hall; [cbn; auto|].
  apply Forall_cons in Hall as [Hi Hall]. cbn [run].
  apply completes_only_bind; [|intros _ st'; apply IH, Hall].
  assert (Hturn : _callbacks (final (turn i st)) = _callbacks st /\
                  Forall (fun c => c.2 = []) (invoked (effects (turn i st)))).
  { destruct i; try contradiction; cbn [turn].
    - apply completes_only_bind; [apply close_completes_only|cbn; auto].
    - apply socket_closed_completes_only. }
  destruct Hturn as [H1 H2]. unfold uncaught, catch, tell.
  destruct (completion (turn i st)); [auto|].
  cbn [final effects]. rewrite invoked_app. cbn [invoked]. rewrite app_nil_r. auto.
Qed.

(** X13. Once a close the caller asked for has completed, the session is
    deaf: the completion listener detached the message listener with all
    the others, so a message the socket would still deliver reaches no
    callback and emits no signal. *)
Theorem no_delivery_after_close (callback : Value) (st : Chrome) (w : WebSocket)
    (data : Text) :
  ws st = Some w -> readyState w <> 3 ->
  socket_message data (final (run [CallClose callback; SocketClosed] st))
  = Out (Normal tt) (final (run [CallClose callback; SocketClosed] st)) [].
Proof.
  intros Hw Hopen. apply Z.eqb_neq in Hopen.
  assert (Hret : forall (m : M unit) st0, final (bind (uncaught m) (fun _ => ret tt) st0)
                                          = final (m st0)).
  { intros m st0. rewrite final_bind.
    destruct (uncaught_run m st0) as [Hfinal _].
    destruct (completion (uncaught m st0)); cbn [ret final]; exact Hfinal. }
  assert (Hclose : exists cb st0,
            final (close callback st)
            = set_ws (ws_close (ws_once_close (CloseCompletion cb)
                                  (ws_removeAllListeners_close w))) st0).
  { assert (Hrun : forall cb st0, ws st0 = Some w ->
              _close cb st0
              = Out (Normal tt)
                    (set_ws (ws_close (ws_once_close (CloseCompletion cb)
                                         (ws_removeAllListeners_close w))) st0) []).
    { intros cb st0 Hw0. unfold _close. rewrite bind_read, Hw0, Hopen. reflexivity. }
    unfold close. destruct (is_function callback).
    - exists callback, st. unfold bind. now rewrite (Hrun callback st Hw).
    - rewrite new_promise_run. eexists _, _. unfold bind, catch.
      rewrite Hrun by exact Hw. reflexivity. }
  destruct Hclose as (cb & st0 & Hclose).
  assert (Hdeaf : exists w', ws (final (run [CallClose callback; SocketClosed] st)) = Some w'
                             /\ message_listener w' = false).
  { cbn [run turn].
    rewrite final_bind.
    destruct (uncaught_run (bind (close callback) (fun _ => ret tt)) st) as [Hfinal _].
    assert (Hfirst : final (uncaught (bind (close callback) (fun _ => ret tt)) st)
                     = final (close callback st)).
    { rewrite Hfinal, final_bind. now destruct (completion (close callback st)). }
    assert (Hnormal : completion (uncaught (bind (close callback) (fun _ => ret tt)) st)
                      = Normal tt).
    { unfold uncaught, catch, tell.
      destruct (completion (bind (close callback) (fun _ => ret tt) st)) as [[]|] eqn:Hc;
        [exact Hc|reflexivity]. }
    rewrite Hnormal, Hret, Hfirst, Hclose.
    unfold socket_closed. rewrite bind_read. cbn [ws set_ws ws_close readyState
      ws_once_close ws_removeAllListeners_close close_listeners app].
    rewrite Hopen. change (2 =? 3) with false. cbv iota. rewrite bind_modify.
    cbn [run_close_listeners run_close_listener].
    rewrite !bind_assoc, bind_read. cbn [ws set_ws]. rewrite !bind_assoc, bind_modify.
    set (seen := set_ws _ (set_ws _ _)).
    rewrite final_bind.
    destruct (call_frame cb [] seen) as (_ & _ & Hws & _).
    destruct (completion (call cb [] seen)); cbn [ret final]; rewrite Hws;
      eexists; (split; [reflexivity|reflexivity]). }
  destruct Hdeaf as (w' & Hw' & Hl).
  unfold socket_message at 1. rewrite bind_read, Hw', Hl. reflexivity.
Qed.

(** ** Startup: the target and its address *)

Lemma await_resolve {A B} (a : A) (k : A -> Async B) : await (resolve a) k = k a.
Proof. unfold await, resolve. cbn. now destruct (k a). Qed.

Lemma await_reject {A B} e (k : A -> Async B) : await (reject e) k = reject e.
Proof. reflexivity. Qed.

Lemma await_normal {A B} (a : A) (k : A -> Async B) :
  await (settled (Normal a)) k = k a.
Proof. apply await_resolve. Qed.

Lemma await_abrupt {A B} e (k : A -> Async B) :
  await (settled (Abrupt e)) k = reject e.
Proof. reflexivity. Qed.

Lemma await_request {A B} r (a : A) (k : A -> Async B) :
  await (request r (Resolved a)) k = (r :: (k a).1, (k a).2).
Proof. reflexivity. Qed.

Lemma ws_address_is_WebSocket_URL s : is_WebSocket_URL ("ws://" +:+ s) = true.
Proof. reflexivity. Qed.

Lemma fetch_address outside this options userTarget :
  This.target this = TargetData (JStr userTarget) ->
  startsWith userTarget "/" = true \/ is_WebSocket_URL userTarget = true ->
  _fetchDebuggerURL outside this options
  = ([], Resolved (VJson (JStr
       (if startsWith userTarget "/"
        then "ws://" +:+ ToString (This.host this) +:+ ":"
             +:+ ToString (This.port this) +:+ userTarget
        else userTarget)))).
Proof.
  intros Htarget Hform. unfold _fetchDebuggerURL. rewrite Htarget.
  destruct (startsWith userTarget "/").
  - now rewrite ws_address_is_WebSocket_URL.
  - destruct Hform as [Hpath|Hurl]; [discriminate|]. now rewrite Hurl.
Qed.

(** X14. A target given as a string that starts with a slash, or with
    the scheme ws: or wss: in any case, is an address: a path is put
    behind ws://host:port, a URL is taken as it stands, and the list of
    targets is not asked of the endpoint. *)
Theorem address_target_needs_no_discovery (outside : Outside) (this : This.t)
    (options : Devtools.options) (userTarget : string) :
  This.target this = TargetData (JStr userTarget) ->
  startsWith userTarget "/" = true \/ is_WebSocket_URL userTarget = true ->
  _fetchDebuggerURL outside this options
  = ([], Resolved (VJson (JStr
       (if startsWith userTarget "/"
        then "ws://" +:+ ToString (This.host this) +:+ ":"
             +:+ ToString (This.port this) +:+ userTarget
        else userTarget)))).
Proof.
  intros Htarget Hform. unfold _fetchDebuggerURL. rewrite Htarget.
  destruct (startsWith userTarget "/") eqn:Hpath.
  - now rewrite ws_address_is_WebSocket_URL.
  - destruct Hform as [Hslash|Hurl]; [discriminate|]. now rewrite Hurl.
Qed.

Lemma find_by_id_find idOrUrl items :
  Forall (fun target => target <> JNull) items ->
  find_by_id idOrUrl items = Some (of_option (find (has_id idOrUrl) items)).
Proof.
  induction 1 as [|target rest Hnull _ IH]; [reflexivity|].
  cbn [find_by_id find]. rewrite prop_field by exact Hnull. unfold has_id at 1.
  destruct (field target "id") as [|[| | |id| |]| | |]; try exact IH.
  destruct (String_eqb id idOrUrl); [reflexivity|exact IH].
Qed.

Lemma property_field object k :
  object <> JNull -> property (VJson object) k = Normal (field object k).
Proof. intros Hnull. unfold property. now rewrite prop_field. Qed.

(** X15. A target given as a string that is no address is an id.  The
    list of targets is asked of the endpoint once, and the address is the
    [webSocketDebuggerUrl] of the first entry whose [id] is that string;
    when no entry has the id, the resolution fails with the TypeError of
    reading a property of undefined. *)
Theorem target_id_lookup (outside : Outside) (this : This.t)
    (options : Devtools.options) (idOrUrl : string) (items : list Json) :
  This.target this = TargetData (JStr idOrUrl) ->
  startsWith idOrUrl "/" = false -> is_WebSocket_URL idOrUrl = false ->
  devtools_List outside options = Resolved (JArr items) ->
  Forall (fun target => target <> JNull) items ->
  _fetchDebuggerURL outside this options
  = ([DevtoolsList options],
     match find (has_id idOrUrl) items with
     | Some object => Resolved (field object "webSocketDebuggerUrl")
     | None => Thrown (VError TypeError "Cannot read properties of undefined" None)
     end).
Proof.
  intros Htarget Hpath Hurl Hlist Hnull. unfold _fetchDebuggerURL.
  rewrite Htarget, Hpath, Hurl, Hlist, await_request.
  cbn [targets_find_by_id]. rewrite find_by_id_find by exact Hnull.
  rewrite await_normal.
  destruct (find (has_id idOrUrl) items) as [object|] eqn:Hfind; cbn [of_option];
    [|reflexivity].
  apply find_some in Hfind as [Hin _].
  rewrite Forall_forall in Hnull. apply list_elem_of_In, Hnull in Hin.
  rewrite property_field by exact Hin. reflexivity.
Qed.

(** X16. A selector that returns a number picks the entry of that index
    in the list the endpoint answered; an index outside the list (negative
    or beyond the end) makes the resolution fail with the TypeError of
    reading a property of undefined. *)
Theorem selector_index (outside : Outside) (this : This.t)
    (options : Devtools.options) (func : Json -> Completion Value)
    (items : list Json) (index : Z) :
  This.target this = TargetFunction func ->
  devtools_List outside options = Resolved (JArr items) ->
  func (JArr items) = Normal (VJson (JNum index)) ->
  (forall object, 0 <= index -> items !! Z.to_nat index = Some object ->
     object <> JNull ->
     _fetchDebuggerURL outside this options
     = ([DevtoolsList options], Resolved (field object "webSocketDebuggerUrl"))) /\
  (index < 0 \/ Z.of_nat (length items) <= index ->
     _fetchDebuggerURL outside this options
     = ([DevtoolsList options],
        Thrown (VError TypeError "Cannot read properties of undefined" None))).
Proof.
  intros Htarget Hlist Hfunc. unfold _fetchDebuggerURL.
  rewrite Htarget, Hlist, await_request, Hfunc, await_normal.
  cbn [targets_at]. rewrite await_normal. split.
  - intros object Hpos Hat Hnull. apply Z.ltb_ge in Hpos. rewrite Hpos, Hat.
    cbn [of_option]. now rewrite property_field.
  - intros Hout. destruct (index <? 0) eqn:Hneg; [reflexivity|].
    apply Z.ltb_ge in Hneg. rewrite lookup_ge_None_2 by lia. reflexivity.
Qed.

(** X17. Without a target among the options (or with a falsy one), the
    session resolves its address with the default selector: the list of
    targets is asked of the endpoint, and the address is the
    [webSocketDebuggerUrl] of the first page that has one, or else of the
    first entry that has one; so it is never a falsy value.  When no
    entry has one, the resolution fails with 'No inspectable targets'. *)
Theorem default_target_resolution (outside : Outside) (options : option Options.t)
    (discovery : Devtools.options) (items : list Json) :
  Target_truthy (Options.target (default no_options options)) = false ->
  devtools_List outside discovery = Resolved (JArr items) ->
  Forall (fun target => target <> JNull) items ->
  _fetchDebuggerURL outside (constructor outside options) discovery
  = ([DevtoolsList discovery],
     match find has_url items with
     | Some first =>
         Resolved (field (default first (find inspectable_page items))
                         "webSocketDebuggerUrl")
     | None => Thrown no_inspectable_targets
     end) /\
  forall url,
    (_fetchDebuggerURL outside (constructor outside options) discovery).2 = Resolved url ->
    truthy url = true.
Proof.
  intros Htarget Hlist Hnull.
  assert (Hpage : forall t, find inspectable_page items = Some t -> has_url t = true).
  { intros t Ht. apply find_some in Ht as [_ Ht].
    unfold inspectable_page in Ht. now apply andb_prop in Ht as [? _]. }
  assert (Hselect : defaultTarget items
            = match find has_url items with
              | Some first => Normal (VJson (default first (find inspectable_page items)))
              | None => Abrupt no_inspectable_targets
              end).
  { destruct (scan_find items VUndefined Hnull (or_introl eq_refl))
      as (backup & Hscan & Hbackup).
    unfold defaultTarget. rewrite Hscan.
    destruct (find inspectable_page items) as [page|] eqn:Hfind.
    - cbn [of_option default from_option id].
      rewrite or_else_truthy by (apply has_url_truthy; auto).
      rewrite has_url_truthy by auto.
      destruct (find has_url items) as [first|] eqn:Hfirst; [reflexivity|].
      apply find_some in Hfind as [Hin Hp].
      eapply find_none in Hfirst; [|exact Hin].
      unfold inspectable_page in Hp. apply andb_prop in Hp as [Hp _]. congruence.
    - rewrite (Hbackup eq_refl). cbn [of_option]. rewrite !or_else_undefined.
      destruct (find has_url items) as [first|] eqn:Hfirst; [|reflexivity].
      cbn [of_option default from_option id].
      apply find_some in Hfirst as [_ Hfirst]. now rewrite has_url_truthy. }
  assert (Hrun : _fetchDebuggerURL outside (constructor outside options) discovery
    = ([DevtoolsList discovery],
       match find has_url items with
       | Some first =>
           Resolved (field (default first (find inspectable_page items))
                           "webSocketDebuggerUrl")
       | None => Thrown no_inspectable_targets
       end)).
  { unfold _fetchDebuggerURL, constructor. cbn [This.target]. rewrite Htarget.
    rewrite Hlist, await_request.
    cbn [defaultTarget_on]. rewrite Hselect.
    destruct (find has_url items) as [first|] eqn:Hfirst; [|reflexivity].
    rewrite await_normal.
    assert (Hchosen : has_url (default first (find inspectable_page items)) = true).
    { destruct (find inspectable_page items) as [page|] eqn:Hfind;
        cbn [default from_option id]; [now apply Hpage|].
      now apply find_some in Hfirst as [_ Hfirst]. }
    set (chosen := default first (find inspectable_page items)) in *.
    assert (Hnn : chosen <> JNull) by (intros Heq; rewrite Heq in Hchosen; discriminate).
    destruct chosen; try contradiction; try discriminate Hchosen.
    rewrite await_normal, property_field by discriminate.
    reflexivity. }
  split; [exact Hrun|]. intros url. rewrite Hrun. cbn [snd].
  destruct (find has_url items) as [first|] eqn:Hfirst; [|discriminate].
  intros [= <-].
  change (has_url (default first (find inspectable_page items)) = true).
  destruct (find inspectable_page items) as [page|] eqn:Hfind;
    cbn [default from_option id]; [now apply Hpage|].
  now apply find_some in Hfirst as [_ Hfirst].
Qed.

(** ** Startup: what it requests, and what it notifies *)

Lemma await_log {A B} (P : Request -> Prop) (m : Async A) (k : A -> Async B) :
  Forall P m.1 -> (forall a, Forall P (k a).1) -> Forall P (await m k).1.
Proof.
  intros Hm Hk. unfold await. destruct m.2; cbn [fst]; auto.
  apply Forall_app; auto.
Qed.

Lemma await_ext {A B} (m : Async A) (k k' : A -> Async B) :
  (forall a, k a = k' a) -> await m k = await m k'.
Proof. intros Hk. unfold await. destruct m.2; [now rewrite Hk|reflexivity..]. Qed.

Lemma settled_log {A} (P : Request -> Prop) (c : Completion A) : Forall P (settled c).1.
Proof. destruct c; constructor. Qed.

Lemma await_resolved {A B} (m : Async A) (k : A -> Async B) b :
  (await m k).2 = Resolved b ->
  exists a, m.2 = Resolved a /\ (k a).2 = Resolved b /\
            (await m k).1 = m.1 ++ (k a).1.
Proof.
  unfold await. destruct m.2 as [a| |]; cbn [fst snd]; try discriminate.
  intros Hk. exists a. auto.
Qed.

Lemma fetch_log (P : Request -> Prop) outside this options :
  (forall o, P (DevtoolsList o)) ->
  Forall P (_fetchDebuggerURL outside this options).1.
Proof.
  intros HP. unfold _fetchDebuggerURL.
  destruct (This.target this) as [|[| | |userTarget| |]|func];
    try (apply settled_log); try constructor.
  - destruct (is_WebSocket_URL _); [constructor|].
    apply await_log; [repeat constructor; apply HP|intros targets].
    apply await_log; [apply settled_log|intros object]. apply settled_log.
  - apply await_log; [repeat constructor; apply HP|intros targets].
    apply await_log; [apply settled_log|intros result].
    apply await_log; [apply settled_log|intros object]. apply settled_log.
Qed.

Lemma locate_log (P : Request -> Prop) outside this options :
  (truthy (This.process this) = false ->
   Forall P (_fetchDebuggerURL outside this options).1) ->
  Forall P (locate outside this options).1.
Proof.
  intros Hfetch. unfold locate.
  destruct (truthy (This.process this)); cbn [negb]; [constructor|].
  apply await_log; [auto|intros url].
  apply await_log; [apply settled_log|intros urlObject].
  apply await_log; [apply settled_log|intros pathname].
  apply await_log; [apply settled_log|intros webSocketUrl]. constructor.
Qed.

Lemma protocol_log (P : Request -> Prop) outside this options :
  (truthy (This.protocol this) = false -> forall o, P (DevtoolsProtocol o)) ->
  Forall P (_fetchProtocol outside this options).1.
Proof.
  intros HP. unfold _fetchProtocol.
  destruct (truthy (This.protocol this)); [constructor|].
  repeat constructor. now apply HP.
Qed.

Lemma connect_log (P : Request -> Prop) outside this webSocketUrl :
  Forall P (create_wrapper outside this webSocketUrl).1 ->
  Forall P (_connect outside this webSocketUrl).1.
Proof. intros Hw. unfold _connect. apply await_log; [exact Hw|constructor]. Qed.

Lemma wrapper_log (P : Request -> Prop) outside this webSocketUrl :
  P NewStdioWrapper -> (forall address, P (NewWebSocket address)) ->
  Forall P (create_wrapper outside this webSocketUrl).1.
Proof.
  intros Hstdio Hws. unfold create_wrapper.
  destruct (truthy (This.process this)); [repeat constructor; exact Hstdio|].
  destruct (This.secure this); [destruct webSocketUrl|]; repeat constructor; apply Hws.
Qed.

Lemma connecting_log (P : Request -> Prop) outside this :
  Forall P (locate outside this (start_options this)).1 ->
  (forall o, Forall P (_fetchProtocol outside this o).1) ->
  (forall protocol, P (ApiPrepare protocol)) ->
  (forall webSocketUrl, Forall P (_connect outside this webSocketUrl).1) ->
  Forall P (connecting outside this).1.
Proof.
  intros Hlocate Hprotocol Hprepare Hconnect. unfold connecting.
  apply await_log; [exact Hlocate|intros located].
  apply await_log; [apply Hprotocol|intros protocol].
  apply await_log; [repeat constructor; apply Hprepare|intros _]. apply Hconnect.
Qed.

Lemma start_log (P : Request -> Prop) outside this :
  Forall P (connecting outside this).1 ->
  P NotifyConnect -> (forall err, P (NotifyError err)) ->
  Forall P (_start outside this).
Proof.
  intros Hlog Hconnect Herror. unfold _start.
  destruct (connecting outside this).2; [| |exact Hlog];
    apply Forall_app; split; auto.
Qed.

Lemma settles_once promise events :
  promise <> Pending -> fold_left on_wrapper_event events promise = promise.
Proof.
  revert promise. induction events as [|event events IH]; intros promise Hp;
    [reflexivity|].
  cbn [fold_left]. destruct promise; [contradiction| |]; cbn [on_wrapper_event];
    now apply IH.
Qed.

Lemma first_event_settles event rest :
  fold_left on_wrapper_event (event :: rest) Pending = on_wrapper_event Pending event.
Proof. cbn [fold_left]. apply settles_once. now destruct event. Qed.

(** X18. The startup notifies at most once, and as the last thing it
    does: 'connect' or 'error', never both.  'connect' is notified only
    after the API has been prepared and the first event of the transport
    was 'open'. *)
Theorem start_notifies_once (outside : Outside) (this : This.t) :
  exists requests,
    Forall (fun r => is_notification r = false) requests /\
    (_start outside this = requests \/
     (_start outside this = requests ++ [NotifyConnect] /\
      (exists protocol, In (ApiPrepare protocol) requests) /\
      exists rest, wrapper_events outside = WrapperOpen :: rest) \/
     exists err, _start outside this = requests ++ [NotifyError err]).
Proof.
  exists (connecting outside this).1. split.
  - apply connecting_log; intros; try reflexivity.
    + apply locate_log. intros _. now apply fetch_log.
    + now apply protocol_log.
    + apply connect_log. now apply wrapper_log.
  - unfold _start. destruct (connecting outside this).2 as [v|err|] eqn:Hanswer;
      [right; left|right; right; now exists err|now left].
    split; [reflexivity|].
    unfold connecting in *.
    apply await_resolved in Hanswer as (located & _ & Hanswer & ->).
    apply await_resolved in Hanswer as (protocol & _ & Hanswer & ->).
    apply await_resolved in Hanswer as ([] & _ & Hanswer & ->).
    split.
    + exists protocol. apply in_or_app. right. apply in_or_app. right.
      apply in_or_app. left. now left.
    + unfold _connect in Hanswer.
      apply await_resolved in Hanswer as ([] & _ & Hanswer & _).
      cbn [snd] in Hanswer.
      destruct (wrapper_events outside) as [|[|err] rest]; [discriminate| |].
      * now exists rest.
      * rewrite first_event_settles in Hanswer. discriminate.
Qed.

Lemma protocol_given outside this options :
  truthy (This.protocol this) = true ->
  _fetchProtocol outside this options = resolve (This.protocol this).
Proof. intros Hp. unfold _fetchProtocol. now rewrite Hp. Qed.

(** X19. With a protocol among the options, and a child process or a
    target that is an address (a path, or a URL of scheme ws: or wss:), the
    startup asks nothing of the discovery endpoint: neither the list of
    targets nor the protocol. *)
Theorem start_without_endpoint (outside : Outside) (this : This.t) :
  truthy (This.protocol this) = true ->
  truthy (This.process this) = true \/
  (exists userTarget,
     This.target this = TargetData (JStr userTarget) /\
     (startsWith userTarget "/" = true \/ is_WebSocket_URL userTarget = true)) ->
  Forall (fun r => asks_endpoint r = false) (_start outside this).
Proof.
  intros Hprotocol Htarget. apply start_log; [|reflexivity|reflexivity].
  apply connecting_log; intros; try reflexivity.
  - apply locate_log. intros Hprocess.
    destruct Htarget as [Hp|(userTarget & Ht & Hform)]; [congruence|].
    rewrite (fetch_address _ _ _ _ Ht Hform). constructor.
  - rewrite protocol_given by exact Hprotocol. constructor.
  - apply connect_log. now apply wrapper_log.
Qed.

Lemma replace_ws_by_wss_scheme url :
  starts_ignoring_case (replace_ws_by_wss url) "ws:" = false.
Proof.
  destruct url as [|a [|b [|c rest]]]; cbn [replace_ws_by_wss].
  - reflexivity.
  - cbn [starts_ignoring_case]. now rewrite andb_false_r.
  - cbn [starts_ignoring_case]. now rewrite !andb_false_r.
  - destruct (starts_ignoring_case (String a (String b (String c rest))) "ws:") eqn:Hws;
      [reflexivity|exact Hws].
Qed.

(** X20. A secure session never opens a socket to an address of scheme
    ws: (in any case): the scheme has been replaced by wss:. *)
Theorem secure_session_never_opens_ws (outside : Outside) (this : This.t)
    (address : string) :
  This.secure this = true ->
  In (NewWebSocket (Some address)) (_start outside this) ->
  starts_ignoring_case address "ws:" = false.
Proof.
  intros Hsecure Hin.
  assert (Hlog : Forall (fun r => match r with
                                  | NewWebSocket (Some a) =>
                                      starts_ignoring_case a "ws:" = false
                                  | _ => True
                                  end) (_start outside this)).
  { apply start_log; [|exact I|intros; exact I].
    apply connecting_log; intros; try exact I.
    - apply locate_log. intros _. apply fetch_log. intros; exact I.
    - apply protocol_log. intros; exact I.
    - apply connect_log. unfold create_wrapper.
      destruct (truthy (This.process this)); [repeat constructor|].
      rewrite Hsecure. destruct webSocketUrl as [url|]; [|constructor].
      repeat constructor. apply replace_ws_by_wss_scheme. }
  rewrite Forall_forall in Hlog. apply list_elem_of_In, Hlog in Hin. exact Hin.
Qed.

(** X21. The promise of [_connect] is settled by the first event of the
    transport: what the transport emits afterwards (an 'error' after it
    has opened, an 'open' after an 'error') changes nothing of what the
    startup requests and notifies. *)
Theorem start_settles_on_first_event (outside : Outside) (this : This.t)
    (event : WrapperEvent) (rest : list WrapperEvent) :
  wrapper_events outside = event :: rest ->
  _start outside this = _start (with_wrapper_events [event] outside) this.
Proof.
  intros Hevents.
  assert (Hconnect : forall webSocketUrl,
            _connect outside this webSocketUrl
            = _connect (with_wrapper_events [event] outside) this webSocketUrl).
  { intros webSocketUrl. unfold _connect. cbn [wrapper_events with_wrapper_events].
    rewrite Hevents, first_event_settles. reflexivity. }
  assert (Hsame : connecting outside this
                  = connecting (with_wrapper_events [event] outside) this).
  { unfold connecting.
    change (locate (with_wrapper_events [event] outside)) with (locate outside).
    apply await_ext. intros located.
    change (_fetchProtocol (with_wrapper_events [event] outside))
      with (_fetchProtocol outside).
    apply await_ext. intros protocol. cbn [api_prepare with_wrapper_events].
    apply await_ext. intros _. apply Hconnect. }
  unfold _start. now rewrite Hsame.
Qed.

Lemma await_In {A B} r (m : Async A) (k : A -> Async B) :
  In r (await m k).1 ->
  In r m.1 \/ exists a, m.2 = Resolved a /\ In r (k a).1.
Proof.
  unfold await. destruct m.2 as [a| |]; cbn [fst]; auto.
  intros Hin. apply in_app_or in Hin as [Hin|Hin]; [now left|].
  right. now exists a.
Qed.

Lemma settled_resolved {A} (c : Completion A) a :
  (settled c).2 = Resolved a -> c = Normal a.
Proof. destruct c; cbn; congruence. Qed.

(** X22. The protocol is asked of the endpoint the target lives on: the
    request for it carries the host name of the debugger address that was
    resolved, and the port of that address (the port of the session when
    the address has none); for a child process it carries the host and
    port of the session.  In both cases it says whether the local copy
    of the protocol is wanted. *)
Theorem protocol_request_options (outside : Outside) (this : This.t)
    (o : Devtools.options) :
  In (DevtoolsProtocol o) (_start outside this) ->
  Devtools.local o = Some (This.local this) /\
  (truthy (This.process this) = true ->
   Devtools.host o = This.host this /\ Devtools.port o = This.port this) /\
  (truthy (This.process this) = false ->
   exists url urlObject,
     (_fetchDebuggerURL outside this (start_options this)).2 = Resolved url /\
     parseUrl outside url = Normal urlObject /\
     Devtools.host o = Url.hostname urlObject /\
     Devtools.port o = or_else (Url.port urlObject) (This.port this)).
Proof.
  intros Hin.
  assert (Htried : In (DevtoolsProtocol o) (connecting outside this).1).
  { unfold _start in Hin. destruct (connecting outside this).2; [| |exact Hin];
      apply in_app_or in Hin as [Hin|[Hin|[]]]; auto; discriminate. }
  clear Hin. unfold connecting in Htried.
  apply await_In in Htried as [Hlocate|(located & Hlocated & Hrest)].
  { exfalso.
    assert (Hlog : Forall (fun r => match r with
                                    | DevtoolsProtocol _ => False
                                    | _ => True
                                    end)
                          (locate outside this (start_options this)).1).
    { apply locate_log. intros _. apply fetch_log. intros; exact I. }
    rewrite Forall_forall in Hlog. apply list_elem_of_In, Hlog in Hlocate.
    exact Hlocate. }
  apply await_In in Hrest as [Hprotocol|(protocol & _ & Hrest)].
  - assert (Ho : o = {| Devtools.host := Devtools.host located.2;
                        Devtools.port := Devtools.port located.2;
                        Devtools.secure := Devtools.secure located.2;
                        Devtools.useHostName := Devtools.useHostName located.2;
                        Devtools.alterPath := Devtools.alterPath located.2;
                        Devtools.local := Some (This.local this) |}).
    { unfold _fetchProtocol in Hprotocol.
      destruct (truthy (This.protocol this)); [destruct Hprotocol|].
      destruct Hprotocol as [[= <-]|[]]. reflexivity. }
    subst o. cbn [Devtools.host Devtools.port Devtools.local].
    split; [reflexivity|].
    unfold locate in Hlocated.
    destruct (truthy (This.process this)); cbn [negb] in Hlocated.
    + split; [intros _|discriminate]. injection Hlocated as <-. auto.
    + split; [discriminate|intros _].
      apply await_resolved in Hlocated as (url & Hurl & Hlocated & _).
      apply await_resolved in Hlocated as (urlObject & Hparse & Hlocated & _).
      apply await_resolved in Hlocated as (pathname & _ & Hlocated & _).
      apply await_resolved in Hlocated as (webSocketUrl & _ & Hlocated & _).
      injection Hlocated as <-. apply settled_resolved in Hparse.
      exists url, urlObject. auto.
  - exfalso. apply await_In in Hrest as [[Hprepare|[]]|([] & _ & Hconnect)];
      [discriminate|].
    assert (Hlog : Forall (fun r => match r with
                                    | DevtoolsProtocol _ => False
                                    | _ => True
                                    end)
                          (_connect outside this located.1).1).
    { apply connect_log. apply wrapper_log; intros; exact I. }
    rewrite Forall_forall in Hlog. apply list_elem_of_In, Hlog in Hconnect.
    exact Hconnect.
Qed.

End Session.

(** * The properties on concrete sessions *)

(** [one_pending] is the session after [send('Foo.bar', {x: 1}, f7)] and
    the acknowledgement of the send. *)
Example one_pending_reached :
  final (run quiet_caller quiet_listeners
           [CallSend (JStr "Foo.bar") (VObject [("x", JNum 1)]) (VFn (UserFn 7));
            SocketAck 0 VUndefined] connected)
  = one_pending.
Proof. vm_compute. reflexivity. Qed.



(** Two sends with an inbound event in between get the ids 1 and 2. *)
Lemma correlation_ids_witness :
  map (fun a => field (ack_message a) "id")
      (transmitted (effects (run quiet_caller quiet_listeners
         [CallSend (JStr "Foo.bar") VUndefined (VFn (UserFn 7));
          SocketMessage (TextOf (JObj [("method", JStr "Foo.baz")]));
          CallSend (JStr "Foo.bar") VUndefined VUndefined] connected)))
  = [VJson (JNum 1); VJson (JNum 2)].
Proof.
  exact (proj1 (correlation_ids quiet_caller quiet_listeners
    [CallSend (JStr "Foo.bar") VUndefined (VFn (UserFn 7));
     SocketMessage (TextOf (JObj [("method", JStr "Foo.baz")]));
     CallSend (JStr "Foo.bar") VUndefined VUndefined])).
Defined.

(** C3, counterexample. The reply [{id: 1, result: 0}] carries a result,
    the number 0, and no error; its callback is invoked in the success
    branch with an empty object, not with the result. *)
Lemma falsy_result_replaced_by_empty_object :
  field (JObj [("id", JNum 1); ("result", JNum 0)]) "result" = VJson (JNum 0) /\
  exists rest,
    effects (_handleMessage quiet_caller quiet_listeners
               (JObj [("id", JNum 1); ("result", JNum 0)]) one_pending)
    = Invoke (UserFn 7) [VBool false; VObject []] one_pending :: rest.
Proof. split; [reflexivity|]. eexists. vm_compute. reflexivity. Qed.

(** The bare reply [{id: 1}] completes command 1 successfully with [{}]. *)
Lemma bare_reply_succeeds_with_empty_object :
  exists rest,
    effects (_handleMessage quiet_caller quiet_listeners
               (JObj [("id", JNum 1)]) one_pending)
    = Invoke (UserFn 7) [VBool false; VObject []] one_pending :: rest.
Proof.
  destruct (reply_callback_arguments quiet_caller quiet_listeners
              (JObj [("id", JNum 1)]) one_pending (UserFn 7))
    as (_ & _ & Hempty); [reflexivity|reflexivity|].
  apply Hempty; reflexivity.
Defined.

(** C4, counterexample. A text that is not JSON is not dropped: the
    message listener ends with the SyntaxError of [JSON.parse]. *)
Lemma unparseable_text_throws :
  on_message quiet_caller quiet_listeners (NotJson "{") one_pending
  = Out (Abrupt (VError SyntaxError "Unexpected token" None)) one_pending [].
Proof. reflexivity. Qed.

(** The parsed message [{foo: 1}] is dropped. *)
Lemma malformed_message_witness :
  on_message quiet_caller quiet_listeners
    (TextOf (JObj [("foo", JNum 1)])) one_pending
  = Out (Normal tt) one_pending [].
Proof.
  apply (proj1 (malformed_message quiet_caller quiet_listeners one_pending));
    [discriminate|reflexivity|reflexivity].
Defined.

(** [send('Foo.bar', {x: 1}, f7)] on the connected session returns
    undefined; acknowledged without error, it leaves [one_pending]. *)
Lemma send_with_callback_witness :
  exists data a,
    send (JStr "Foo.bar") (VObject [("x", JNum 1)]) (VFn (UserFn 7)) connected
    = Out (Normal VUndefined)
          (set_ws (ws_send data a open_socket) (set_nextCommandId 2 connected))
          [Transmit data a] /\
    acknowledge quiet_caller a VUndefined (set_nextCommandId 2 connected)
    = Out (Normal tt) one_pending [].
Proof.
  destruct (send_with_callback quiet_caller (JStr "Foo.bar")
              (VObject [("x", JNum 1)]) (VFn (UserFn 7)) (UserFn 7)
              connected open_socket)
    as (data & a & Hsend & _ & _ & _ & Hack); [reflexivity|reflexivity|].
  exists data, a. split; [exact Hsend|].
  apply (Hack VUndefined (set_nextCommandId 2 connected)). reflexivity.
Defined.

(** [promise_pending] is the session after [send('Foo.bar', {x: 1})]
    without a callback and the acknowledgement of the send. *)
Example promise_pending_reached :
  final (run quiet_caller quiet_listeners
           [CallSend (JStr "Foo.bar") (VObject [("x", JNum 1)]) VUndefined;
            SocketAck 0 VUndefined] connected)
  = promise_pending.
Proof. vm_compute. reflexivity. Qed.



(** C7, counterexample. While command 1 is pending, the inbound event
    [{method: 'ready'}] makes the session emit 'ready': the signal fires
    with a command outstanding and without any reply. *)
Lemma event_named_ready_fires_ready :
  effects (_handleMessage quiet_caller quiet_listeners
             (JObj [("method", JStr "ready")]) one_pending)
  = [Emit "event" [VJson (JObj [("method", JStr "ready")])] one_pending;
     Emit "ready" [VUndefined] one_pending] /\
  _callbacks one_pending !! "1" = Some (VFn (UserFn 7)).
Proof. split; vm_compute; reflexivity. Qed.

(** The reply to the only pending command makes the session idle: one
    'ready'. *)
Lemma ready_after_last_reply :
  emitted "ready" (effects (_handleMessage quiet_caller quiet_listeners
                              (JObj [("id", JNum 1)]) one_pending)) = 1%nat.
Proof.
  destruct (ready_on_transition_to_idle quiet_caller quiet_listeners
              (JObj [("id", JNum 1)]) one_pending (or_introl eq_refl))
    as [[(Hone & _ & _)|(_ & Hnot)] _]; [reflexivity|exact Hone|].
  exfalso. apply Hnot. split; [discriminate|reflexivity].
Defined.

(** The target lists of the specification: the page is preferred; without
    a page the first target with an endpoint is taken. *)
Lemma defaultTarget_examples :
  defaultTarget
    [JObj [("id", JStr "a"); ("type", JStr "background")];
     JObj [("id", JStr "b"); ("type", JStr "page");
           ("webSocketDebuggerUrl", JStr "ws://x")]]
  = Normal (VObject [("id", JStr "b"); ("type", JStr "page");
                     ("webSocketDebuggerUrl", JStr "ws://x")]) /\
  defaultTarget
    [JObj [("id", JStr "a"); ("type", JStr "background");
           ("webSocketDebuggerUrl", JStr "ws://a")];
     JObj [("id", JStr "b"); ("type", JStr "background");
           ("webSocketDebuggerUrl", JStr "ws://b")]]
  = Normal (VObject [("id", JStr "a"); ("type", JStr "background");
                     ("webSocketDebuggerUrl", JStr "ws://a")]).
Proof.
  split.
  - match goal with
    | |- defaultTarget ?l = _ =>
        destruct (defaultTarget_selection l) as (Hpage & _)
    end; [repeat constructor; discriminate|].
    apply Hpage. reflexivity.
  - match goal with
    | |- defaultTarget ?l = _ =>
        destruct (defaultTarget_selection l) as (_ & Hany & _)
    end; [repeat constructor; discriminate|].
    apply Hany; reflexivity.
Defined.

(** C9, the failing input. [close(f1)] and then [close(f2)] are called
    on a connected session before the socket has closed, and then the
    socket closes: only [f2] is invoked.  The second call removed, with
    the disconnect notifier, the listener that was to complete the
    first. *)
Theorem close_twice_loses_first_callback :
  effects (run quiet_caller quiet_listeners
             [CallClose (VFn (UserFn 1)); CallClose (VFn (UserFn 2)); SocketClosed]
             connected)
  = [Invoke (UserFn 2) []
       (set_ws {| readyState := 3; close_listeners := [];
                  message_listener := false; unacked := [] |} connected)].
Proof. vm_compute. reflexivity. Qed.


(** C10. On the session that has just connected, with no command
    pending, the message [{id: 'constructor', method: 'Foo.baz'}] is not
    dropped silently: line 273 finds the function Object on
    Object.prototype, the guard of line 274 lets it pass, line 282 calls
    it, and line 288 emits 'ready'. *)
Lemma inherited_member_taken_for_callback :
  _handleMessage quiet_caller quiet_listeners
    (JObj [("id", JStr "constructor"); ("method", JStr "Foo.baz")]) connected
  = Out (Normal tt) connected
        [CallInherited "constructor" [VBool false; VObject []];
         Emit "ready" [] connected].
Proof. vm_compute. reflexivity. Qed.

(** After the peer has closed the socket, [close(f1)] invokes [f1] at
    once. *)
Lemma close_on_closed_socket_witness :
  effects (close quiet_caller (VFn (UserFn 1)) peer_closed)
  = [Invoke (UserFn 1) [] peer_closed].
Proof.
  apply (close_on_closed_socket quiet_caller (UserFn 1) peer_closed
           (ws_closed open_socket)); reflexivity.
Defined.

(** [close(f1)] on the connected session: the closure of the socket emits
    no 'disconnect'. *)
Lemma caller_close_suppresses_disconnect_witness :
  emitted "disconnect"
    (effects (socket_closed quiet_caller quiet_listeners
                (final (close quiet_caller (VFn (UserFn 1)) connected))))
  = 0%nat.
Proof.
  destruct (caller_close_suppresses_disconnect quiet_caller quiet_listeners
              (UserFn 1) connected open_socket)
    as (_ & seen & _ & Hnone); [reflexivity|discriminate|exact Hnone].
Defined.

(** The peer closes the socket and [close] is called twice: at most one
    'disconnect'. *)
Lemma at_most_one_disconnect_witness :
  (emitted "disconnect"
     (effects (run quiet_caller quiet_listeners
                 [SocketClosed; CallClose (VFn (UserFn 1)); CallClose (VFn (UserFn 2))]
                 connected)) <= 1)%nat.
Proof.
  apply at_most_one_disconnect. repeat constructor.
Defined.

(** The event [{method: 'Foo.baz', params: {z: 3}}] of the specification. *)
Lemma event_dispatch_witness :
  effects (_handleMessage quiet_caller quiet_listeners
             (JObj [("method", JStr "Foo.baz"); ("params", JObj [("z", JNum 3)])])
             one_pending)
  = [Emit "event"
       [VJson (JObj [("method", JStr "Foo.baz"); ("params", JObj [("z", JNum 3)])])]
       one_pending;
     Emit "Foo.baz" [VObject [("z", JNum 3)]] one_pending].
Proof.
  apply (event_dispatch quiet_caller quiet_listeners
           (JObj [("method", JStr "Foo.baz"); ("params", JObj [("z", JNum 3)])])
           one_pending); reflexivity.
Defined.


(** Callback 7 throws on the reply to command 1: the session stays as it
    was, command 1 pending. *)
Lemma throwing_callback_stays_pending_witness :
  exists args,
    _handleMessage (always_throws (VJson (JStr "boom"))) quiet_listeners
      (JObj [("id", JNum 1); ("result", JObj [])]) one_pending
    = Out (Abrupt (VJson (JStr "boom"))) one_pending
          [Invoke (UserFn 7) args one_pending].
Proof.
  destruct (throwing_callback_stays_pending
              (always_throws (VJson (JStr "boom"))) quiet_listeners
              (JObj [("id", JNum 1); ("result", JObj [])]) one_pending 7
              (VJson (JStr "boom")))
    as (args & Hfirst & _); [reflexivity|reflexivity|reflexivity|].
  exists args. exact Hfirst.
Defined.

(** The first command of a session, answered before its send is
    acknowledged: the reply is dropped. *)
Lemma reply_before_acknowledgement_is_lost_witness :
  _handleMessage quiet_caller quiet_listeners
    (JObj [("id", JNum 1); ("result", JObj [])])
    (final (send (JStr "Foo.bar") VUndefined (VFn (UserFn 7)) connected))
  = Out (Normal tt)
        (final (send (JStr "Foo.bar") VUndefined (VFn (UserFn 7)) connected)) [].
Proof.
  destruct (reply_before_acknowledgement_is_lost quiet_caller quiet_listeners
              (JStr "Foo.bar") VUndefined (VFn (UserFn 7)) (UserFn 7) connected
              open_socket (JObj [("id", JNum 1); ("result", JObj [])]))
    as (data & a & _ & Hdropped & _);
    [reflexivity|reflexivity|reflexivity|reflexivity|discriminate|exact Hdropped].
Defined.

(** A raw message with the id 99 goes out under the id 99, not under the
    allocated id 1. *)
Lemma sendRaw_own_id_overrides_witness :
  exists data a,
    effects (sendRaw (JObj [("id", JNum 99); ("method", JStr "Foo.bar")])
                     (VFn (UserFn 7)) connected)
    = [Transmit data a] /\
    field (ack_message a) "id" = VJson (JNum 99).
Proof.
  destruct (sendRaw_own_id_overrides quiet_caller
              [("id", JNum 99); ("method", JStr "Foo.bar")] (UserFn 7) connected
              open_socket)
    as (data & a & Hsend & Hid & _);
    [reflexivity|cbn [map fst]; apply NoDup_cons; split;
                 [now rewrite list_elem_of_singleton|apply NoDup_singleton]|].
  exists data, a. rewrite Hsend. split; [reflexivity|exact Hid].
Defined.

(** A send on the session the constructor leaves throws a TypeError and
    has used the id 1. *)
Lemma send_without_transport_witness :
  exists what,
    send (JStr "Foo.bar") VUndefined (VFn (UserFn 7)) constructed
    = Out (Abrupt (VError TypeError what None)) (set_nextCommandId 2 constructed) [].
Proof.
  destruct (send_without_transport (JStr "Foo.bar") VUndefined (VFn (UserFn 7))
              constructed)
    as (what & Hthrows & _); [reflexivity|].
  exists what. apply Hthrows. reflexivity.
Defined.

(** The transport fails a send without a callback with the string
    'EPIPE': the acknowledgement throws, the promise stays pending. *)
Lemma promise_unsettled_by_non_error_failure_witness :
  exists data a what,
    effects (send (JStr "Foo.bar") VUndefined VUndefined connected)
    = [Transmit data a] /\
    completion (acknowledge quiet_caller a (VJson (JStr "EPIPE"))
                  (final (send (JStr "Foo.bar") VUndefined VUndefined connected)))
    = Abrupt (VError TypeError what None) /\
    promises (final (acknowledge quiet_caller a (VJson (JStr "EPIPE"))
                       (final (send (JStr "Foo.bar") VUndefined VUndefined connected))))
    = [Pending].
Proof.
  destruct (promise_unsettled_by_non_error_failure quiet_caller
              (JStr "Foo.bar") VUndefined VUndefined connected open_socket
              (VJson (JStr "EPIPE")))
    as (data & a & what & Hsend & Hack);
    [reflexivity|reflexivity|reflexivity|reflexivity|].
  exists data, a, what. rewrite Hsend. cbn [effects final].
  split; [reflexivity|]. destruct (Hack (set_ws (ws_send data a open_socket)
    (set_nextCommandId (_nextCommandId connected + 1)
       (set_promises (promises connected ++ [Pending]) connected)))) as [Hc Hf].
  split; [exact Hc|]. rewrite Hf. reflexivity.
Defined.

(** [close()] on the connected session: the promise is fulfilled when the
    socket has closed. *)
Lemma close_promise_witness :
  promises (final (socket_closed quiet_caller quiet_listeners
                     (final (close quiet_caller VUndefined connected)))) !! 0%nat
  = Some (Fulfilled VUndefined).
Proof.
  destruct (close_promise quiet_caller quiet_listeners VUndefined connected open_socket)
    as (_ & _ & Hopen); [reflexivity|reflexivity|].
  destruct Hopen as (_ & Hfulfilled & _); [discriminate|exact Hfulfilled].
Defined.

(** Command 1 is pending when the session is closed: it stays pending. *)
Lemma closing_keeps_pending_commands_witness :
  _callbacks (final (run quiet_caller quiet_listeners
                       [CallClose (VFn (UserFn 1)); SocketClosed] one_pending))
  = _callbacks one_pending.
Proof.
  destruct (closing_keeps_pending_commands quiet_caller quiet_listeners
              [CallClose (VFn (UserFn 1)); SocketClosed] one_pending)
    as [Hkept _]; [repeat constructor|exact Hkept].
Defined.

(** The reply to the pending command 1, after the session was closed. *)
Lemma no_delivery_after_close_witness :
  effects (socket_message quiet_caller quiet_listeners
             (TextOf (JObj [("id", JNum 1); ("result", JObj [])]))
             (final (run quiet_caller quiet_listeners
                       [CallClose (VFn (UserFn 1)); SocketClosed] one_pending)))
  = [].
Proof.
  rewrite (no_delivery_after_close quiet_caller quiet_listeners (VFn (UserFn 1))
             one_pending open_socket
             (TextOf (JObj [("id", JNum 1); ("result", JObj [])])));
    [reflexivity|reflexivity|discriminate].
Defined.

(** The target '/devtools/page/b' with the default host and port. *)
Lemma address_target_needs_no_discovery_witness :
  _fetchDebuggerURL example_outside
    (constructor example_outside
       (Some (target_option (TargetData (JStr "/devtools/page/b")))))
    (start_options (constructor example_outside
       (Some (target_option (TargetData (JStr "/devtools/page/b"))))))
  = ([], Resolved (VJson (JStr "ws://localhost:9222/devtools/page/b"))).
Proof.
  apply (address_target_needs_no_discovery example_outside
           (constructor example_outside
              (Some (target_option (TargetData (JStr "/devtools/page/b")))))
           _ "/devtools/page/b"); [reflexivity|left; reflexivity].
Defined.

(** The target 'b' is the id of the page. *)
Lemma target_id_lookup_witness :
  (_fetchDebuggerURL example_outside
     (constructor example_outside (Some (target_option (TargetData (JStr "b")))))
     (start_options (constructor example_outside
        (Some (target_option (TargetData (JStr "b"))))))).2
  = Resolved (VJson (JStr "ws://localhost:9222/devtools/page/b")).
Proof.
  rewrite (target_id_lookup example_outside
             (constructor example_outside (Some (target_option (TargetData (JStr "b")))))
             _ "b" [worker_a; page_b]);
    [reflexivity|reflexivity|reflexivity|reflexivity|reflexivity|].
  repeat constructor; discriminate.
Defined.

(** A selector that answers 1 picks the second target. *)
Lemma selector_index_witness :
  (_fetchDebuggerURL example_outside
     (constructor example_outside
        (Some (target_option (TargetFunction (fun _ => Normal (VJson (JNum 1)))))))
     (start_options (constructor example_outside
        (Some (target_option (TargetFunction (fun _ => Normal (VJson (JNum 1))))))))).2
  = Resolved (VJson (JStr "ws://localhost:9222/devtools/page/b")).
Proof.
  destruct (selector_index example_outside
              (constructor example_outside
                 (Some (target_option
                          (TargetFunction (fun _ => Normal (VJson (JNum 1)))))))
              (start_options (constructor example_outside
                 (Some (target_option
                          (TargetFunction (fun _ => Normal (VJson (JNum 1))))))))
              (fun _ => Normal (VJson (JNum 1))) [worker_a; page_b] 1)
    as [Hinside _]; [reflexivity|reflexivity|reflexivity|].
  rewrite (Hinside page_b); [reflexivity|lia|reflexivity|discriminate].
Defined.

(** Without options, the page is chosen before the worker. *)
Lemma default_target_resolution_witness :
  (_fetchDebuggerURL example_outside (constructor example_outside None)
     (start_options (constructor example_outside None))).2
  = Resolved (VJson (JStr "ws://localhost:9222/devtools/page/b")).
Proof.
  destruct (default_target_resolution example_outside None
              (start_options (constructor example_outside None)) [worker_a; page_b])
    as [Hrun _]; [reflexivity|reflexivity|repeat constructor; discriminate|].
  rewrite Hrun. reflexivity.
Defined.

(** A session that brings its address and its protocol. *)
Lemma start_without_endpoint_witness :
  Forall (fun r => asks_endpoint r = false)
         (_start example_outside (constructor example_outside (Some offline_options))).
Proof.
  apply start_without_endpoint; [reflexivity|].
  right. exists "ws://localhost:9222/devtools/page/b".
  split; [reflexivity|right; reflexivity].
Defined.

(** The secure session opens its socket to the wss: address. *)
Lemma secure_session_never_opens_ws_witness :
  In (NewWebSocket (Some "wss://localhost:9222/devtools/page/b"))
     (_start example_outside (constructor example_outside (Some offline_options))) /\
  starts_ignoring_case "wss://localhost:9222/devtools/page/b" "ws:" = false.
Proof.
  assert (Hin : In (NewWebSocket (Some "wss://localhost:9222/devtools/page/b"))
                   (_start example_outside
                      (constructor example_outside (Some offline_options)))).
  { right. left. reflexivity. }
  split; [exact Hin|].
  apply (secure_session_never_opens_ws example_outside
           (constructor example_outside (Some offline_options)));
    [reflexivity|exact Hin].
Defined.

(** The transport opens and then reports an error: the startup is that
    of a transport that opens. *)
Lemma start_settles_on_first_event_witness :
  _start example_outside (constructor example_outside None)
  = _start (with_wrapper_events [WrapperOpen] example_outside)
           (constructor example_outside None).
Proof.
  apply (start_settles_on_first_event example_outside
           (constructor example_outside None) WrapperOpen
           [WrapperError (VError PlainError "socket hang up" None)]).
  reflexivity.
Defined.

(** Without options the protocol is asked of the host and port of the
    page's address. *)
Lemma protocol_request_options_witness :
  exists o,
    In (DevtoolsProtocol o) (_start example_outside (constructor example_outside None)) /\
    Devtools.local o = Some false /\
    exists url urlObject,
      parseUrl example_outside url = Normal urlObject /\
      Devtools.host o = Url.hostname urlObject /\
      Devtools.port o = VJson (JStr "9222").
Proof.
  eexists. split; [right; left; reflexivity|].
  destruct (protocol_request_options example_outside
              (constructor example_outside None) _
              (or_intror (or_introl eq_refl)))
    as (Hlocal & _ & Hurl).
  split; [exact Hlocal|].
  destruct (Hurl eq_refl) as (url & urlObject & _ & Hparse & Hhost & Hport).
  exists url, urlObject. split; [exact Hparse|]. split; [exact Hhost|].
  rewrite Hport. cbn in Hparse. injection Hparse as <-. reflexivity.
Defined.
